(** * RAIS image server: the IIIF size parser and the request handler

    A shallow embedding of [iiif.StringToSize] / [Size.Valid] (package
    [iiif]) and of the HTTP handler of [rais-server/iiif_handler.go],
    together with the properties the design document states about them.

    Go strings are byte sequences: they are [string]s here, one [ascii]
    per byte.  Go's [int] is the 64-bit integer of the linux-amd64
    toolchain the build image installs; it is a [Z] with the range limits
    written out where the code depends on them.  [float64] is the
    primitive binary64 [float]. *)

From Stdlib Require Import ZArith List String Ascii Bool Lia.
From Stdlib Require Import Floats.
Import ListNotations.

Open Scope string_scope.
Open Scope Z_scope.

(** ** Run-time panics *)

Inductive RuntimeError : Type :=
| SliceBoundsOutOfRange
| IndexOutOfRange.

(** The outcome of a Go function that may panic. *)
Inductive outcome (A : Type) : Type :=
| Returns (a : A)
| Panics (e : RuntimeError).

Arguments Returns {A} a.
Arguments Panics {A} e.

Definition bind {A B : Type} (m : outcome A) (k : A -> outcome B) : outcome B :=
  match m with
  | Returns a => k a
  | Panics e => Panics e
  end.

Notation "x <- m ;; k" := (bind m (fun x => k))
  (at level 61, m at next level, right associativity).

(** ** Strings and slices *)

Module GoString.

Definition len (s : string) : nat := String.length s.

(** [s[n:]] when [n <= len s]. *)
Fixpoint drop (n : nat) (s : string) : string :=
  match n, s with
  | O, _ => s
  | S n', String _ s' => drop n' s'
  | S _, EmptyString => EmptyString
  end.

(** [s[lo:hi]]; Go panics unless [lo <= hi <= len s]. *)
Definition slice (s : string) (lo hi : nat) : outcome string :=
  if (Nat.leb lo hi && Nat.leb hi (len s))%bool
  then Returns (String.substring lo (hi - lo) s)
  else Panics SliceBoundsOutOfRange.

(** [s[lo:]]. *)
Definition slice_from (s : string) (lo : nat) : outcome string :=
  if Nat.leb lo (len s) then Returns (drop lo s)
  else Panics SliceBoundsOutOfRange.

(** [vals[i]] on a slice of strings. *)
Definition index (vals : list string) (i : nat) : outcome string :=
  match nth_error vals i with
  | Some v => Returns v
  | None => Panics IndexOutOfRange
  end.

(** [strings.Split(s, sep)] for a one-byte separator: the pieces
    between the separators, always at least one piece. *)
Fixpoint Split (s : string) (sep : ascii) : list string :=
  match s with
  | EmptyString => [EmptyString]
  | String c s' =>
      if Ascii.eqb c sep then EmptyString :: Split s' sep
      else match Split s' sep with
           | tok :: toks => String c tok :: toks
           | [] => [String c EmptyString]
           end
  end.

Fixpoint contains (s : string) (c : ascii) : bool :=
  match s with
  | EmptyString => false
  | String a s' => Ascii.eqb a c || contains s' c
  end.

Definition code (c : ascii) : Z := Z.of_N (N_of_ascii c).

Definition is_digit (c : ascii) : bool := (48 <=? code c) && (code c <=? 57).

(** ASCII lower-casing, as [equalIgnoreCase] of strconv does it. *)
Definition lower (c : ascii) : ascii :=
  if (65 <=? code c) && (code c <=? 90)
  then ascii_of_N (N_of_ascii c + 32) else c.

Fixpoint map_lower (s : string) : string :=
  match s with
  | EmptyString => EmptyString
  | String c s' => String (lower c) (map_lower s')
  end.

Definition equalIgnoreCase (s t : string) : bool :=
  String.eqb (map_lower s) (map_lower t).

End GoString.

Import GoString.

(** ** The parts of [strconv] the size parser calls

    [strconv] belongs to the Go distribution (release 1.7 in the build
    image), not to this program.  [Atoi] follows [ParseInt]/[ParseUint]
    statement by statement.  [ParseFloat] follows the grammar of
    [readFloat] and [special]; the conversion of the decimal to binary64
    is given by its specification, rounding to nearest even, rather than
    by the multi-precision code that implements it (whose 800-digit
    buffer is not modelled). *)

Module Strconv.

Inductive NumError : Type :=
| ErrSyntax
| ErrRange.

Definition error := option NumError.

Definition maxUint64 : Z := 2 ^ 64 - 1.

Definition digit_val (c : ascii) : Z := code c - 48.

(** The loop of [ParseUint(s, 10, 64)] with accumulator [n]. A range
    error ends the loop at once, before the remaining bytes are seen. *)
Fixpoint ParseUint_loop (s : string) (n : Z) : Z * error :=
  match s with
  | EmptyString => (n, None)
  | String d s' =>
      if is_digit d then
        if maxUint64 / 10 + 1 <=? n then (maxUint64, Some ErrRange)
        else
          let n1 := n * 10 + digit_val d in
          if maxUint64 <? n1 then (maxUint64, Some ErrRange)
          else ParseUint_loop s' n1
      else (0, Some ErrSyntax)
  end.

Definition ParseUint (s : string) : Z * error :=
  match s with
  | EmptyString => (0, Some ErrSyntax)
  | _ => ParseUint_loop s 0
  end.

(** [ParseInt(s, 10, 0)] with [IntSize = 64]. *)
Definition ParseInt (s : string) : Z * error :=
  match s with
  | EmptyString => (0, Some ErrSyntax)
  | String c0 s' =>
      let '(neg, s1) :=
        if Ascii.eqb c0 "+" then (false, s')
        else if Ascii.eqb c0 "-" then (true, s')
        else (false, s) in
      let '(un, err) := ParseUint s1 in
      match err with
      | Some ErrSyntax => (0, Some ErrSyntax)
      | _ =>
          let cutoff := 2 ^ 63 in
          if negb neg && (cutoff <=? un) then (cutoff - 1, Some ErrRange)
          else if neg && (cutoff <? un) then (- cutoff, Some ErrRange)
          else (if neg then - un else un, None)
      end
  end.

Definition Atoi (s : string) : Z * error := ParseInt s.

(** *** ParseFloat *)

(** [special]: the spellings of infinities and NaN. *)
Definition special (s : string) : option float :=
  match s with
  | EmptyString => None
  | String c0 _ =>
      if Ascii.eqb c0 "+" then
        if equalIgnoreCase s "+inf" || equalIgnoreCase s "+infinity"
        then Some infinity else None
      else if Ascii.eqb c0 "-" then
        if equalIgnoreCase s "-inf" || equalIgnoreCase s "-infinity"
        then Some neg_infinity else None
      else if Ascii.eqb c0 "n" || Ascii.eqb c0 "N" then
        if equalIgnoreCase s "nan" then Some nan else None
      else if Ascii.eqb c0 "i" || Ascii.eqb c0 "I" then
        if equalIgnoreCase s "inf" || equalIgnoreCase s "infinity"
        then Some infinity else None
      else None
  end.

(** State of the mantissa scan of [readFloat]. *)
Record scan : Type := mkScan {
  sawdot : bool;
  sawdigits : bool;
  nd : Z;      (* significant digits read *)
  dp : Z;      (* position of the decimal point *)
  mant : Z     (* the significant digits, as a number *)
}.

Fixpoint scan_mantissa (s : string) (st : scan) : option (scan * string) :=
  match s with
  | EmptyString => Some (st, s)
  | String c s' =>
      if Ascii.eqb c "." then
        if sawdot st then None
        else scan_mantissa s' (mkScan true (sawdigits st) (nd st) (nd st) (mant st))
      else if is_digit c then
        if Ascii.eqb c "0" && (nd st =? 0)
        then scan_mantissa s' (mkScan (sawdot st) true (nd st) (dp st - 1) (mant st))
        else scan_mantissa s'
               (mkScan (sawdot st) true (nd st + 1) (dp st)
                       (mant st * 10 + digit_val c))
      else Some (st, s)
  end.

(** The digits of the exponent; the value stops growing at 10000. *)
Fixpoint scan_exponent (s : string) (e : Z) : Z * string :=
  match s with
  | EmptyString => (e, s)
  | String c s' =>
      if is_digit c
      then scan_exponent s' (if e <? 10000 then e * 10 + digit_val c else e)
      else (e, s)
  end.

(** [readFloat]: sign, digits with at most one point, optional
    exponent; [Some (neg, m, e)] stands for [(-1)^neg * m * 10^e]. *)
Definition readFloat (s : string) : option (bool * Z * Z) :=
  match s with
  | EmptyString => None
  | String c0 s' =>
      let '(neg, s1) :=
        if Ascii.eqb c0 "+" then (false, s')
        else if Ascii.eqb c0 "-" then (true, s')
        else (false, s) in
      match scan_mantissa s1 (mkScan false false 0 0 0) with
      | None => None
      | Some (st, rest) =>
          if negb (sawdigits st) then None
          else
            let dp0 := if sawdot st then dp st else nd st in
            match rest with
            | EmptyString => Some (neg, mant st, dp0 - nd st)
            | String c r1 =>
                if Ascii.eqb c "e" || Ascii.eqb c "E" then
                  match r1 with
                  | EmptyString => None
                  | String c2 r2 =>
                      let '(esign, r3) :=
                        if Ascii.eqb c2 "+" then (1, r2)
                        else if Ascii.eqb c2 "-" then (-1, r2)
                        else (1, r1) in
                      match r3 with
                      | EmptyString => None
                      | String c3 _ =>
                          if is_digit c3 then
                            let '(e, r4) := scan_exponent r3 0 in
                            match r4 with
                            | EmptyString =>
                                Some (neg, mant st, dp0 + e * esign - nd st)
                            | _ => None
                            end
                          else None
                      end
                  end
                else None
            end
      end
  end.

(** The binary64 number nearest to [(-1)^neg * m * 10^e], ties to
    even; an infinity when the magnitude is out of range. *)
Definition decimal_to_binary64 (neg : bool) (m : positive) (e : Z) : spec_float :=
  match e with
  | Zneg k =>
      SFdiv prec emax (S754_finite neg m 0)
            (S754_finite false (Pos.pow 10 k) 0)
  | _ => binary_round prec emax neg (m * Z.to_pos (10 ^ e)) 0
  end.

Definition ParseFloat (s : string) : float * error :=
  match special s with
  | Some f => (f, None)
  | None =>
      match readFloat s with
      | None => (zero, Some ErrSyntax)
      | Some (neg, Zpos m, e) =>
          let sf := decimal_to_binary64 neg m e in
          (SF2Prim sf,
           match sf with S754_infinity _ => Some ErrRange | _ => None end)
      | Some (neg, _, _) => (if neg then neg_zero else zero, None)
      end
  end.

End Strconv.

Import Strconv.

(** ** Package [iiif]: the size of a request *)

Definition SizeType := Z.

Definition STNone : SizeType := 0.
Definition STFull : SizeType := 1.
Definition STScaleToWidth : SizeType := 2.
Definition STScaleToHeight : SizeType := 3.
Definition STScalePercent : SizeType := 4.
Definition STExact : SizeType := 5.
Definition STBestFit : SizeType := 6.

Record Size : Type := mkSize {
  Type_ : SizeType;
  Percent : float;
  W : Z;
  H : Z
}.

Definition comma : ascii := ",".

Definition StringToSize (p : string) : outcome Size :=
  if String.eqb p "full" then Returns (mkSize STFull zero 0 0)
  else
    let s := mkSize STNone zero 0 0 in
    if Nat.ltb 4 (len p) && String.eqb (String.substring 0 4 p) "pct:" then
      Returns (mkSize STScalePercent (fst (ParseFloat (drop 4 p))) (W s) (H s))
    else
      p01 <- slice p 0 1 ;;
      sp <- (if String.eqb p01 "!"
             then p' <- slice_from p 1 ;;
                  Returns (mkSize STBestFit (Percent s) (W s) (H s), p')
             else Returns (s, p)) ;;
      let '(s, p) := sp in
      let vals := Split p comma in
      v0 <- index vals 0 ;;
      let s := mkSize (Type_ s) (Percent s) (fst (Atoi v0)) (H s) in
      v1 <- index vals 1 ;;
      let s := mkSize (Type_ s) (Percent s) (W s) (fst (Atoi v1)) in
      Returns
        (if Type_ s =? STNone then
           if String.eqb v0 "" then mkSize STScaleToHeight (Percent s) (W s) (H s)
           else if String.eqb v1 "" then mkSize STScaleToWidth (Percent s) (W s) (H s)
           else mkSize STExact (Percent s) (W s) (H s)
         else s).

Definition Valid (s : Size) : bool :=
  if Type_ s =? STFull then true
  else if Type_ s =? STScaleToWidth then 0 <? W s
  else if Type_ s =? STScaleToHeight then 0 <? H s
  else if Type_ s =? STScalePercent then (zero <? Percent s)%float
  else if (Type_ s =? STExact) || (Type_ s =? STBestFit) then (0 <? W s) && (0 <? H s)
  else false.

(** A size with tag [t] and every field at its zero value. *)
Definition zeroSize (t : SizeType) : Size := mkSize t zero 0 0.

(** The pieces the width and the height are read from: the input
    without its leading "!", cut at the commas. *)
Definition size_tokens (p : string) : list string :=
  match p with
  | String a r => Split (if Ascii.eqb a "!" then r else p) comma
  | EmptyString => Split p comma
  end.

(** ** Byte slices

    A Go [[]byte] is [nil] or a (possibly empty) sequence of bytes; the
    handler tells the two apart. *)

Module Bytes.

Definition slice := option string.

Definition nil : slice := None.

(** [string(b)] / the bytes [w.Write(b)] sends: [nil] holds none. *)
Definition to_string (b : slice) : string :=
  match b with
  | Some s => s
  | None => EmptyString
  end.

(** How [bytes.Replace] copies its input when there is nothing to
    replace.  Releases of the library differ: a slice allocated with
    [make] and filled is never [nil]; [append([]byte(nil), s...)], the
    form of current releases, is [nil] when [s] holds no byte. *)
Inductive CopyStyle : Type :=
| MakeAndCopy
| AppendToNil.

Definition copy_of (style : CopyStyle) (s : string) : slice :=
  match style, s with
  | AppendToNil, EmptyString => nil
  | _, _ => Some s
  end.

Fixpoint HasPrefix (s pre : string) : bool :=
  match pre, s with
  | EmptyString, _ => true
  | String a pre', String b s' => Ascii.eqb a b && HasPrefix s' pre'
  | String _ _, EmptyString => false
  end.

(** [bytes.Index(s, sep)]: the offset of the first [sep] in [s]. *)
Fixpoint Index (s sep : string) : option nat :=
  if HasPrefix s sep then Some O
  else match s with
       | EmptyString => None
       | String _ s' => option_map S (Index s' sep)
       end.

(** [String.substring 0 n s], that is [s[:n]]. *)
Definition take (n : nat) (s : string) : string := String.substring 0 n s.

(** [bytes.Replace(s, old, new, 1)] for a non-empty [old]: a copy of
    [s] when [old] does not occur, else a new slice with the first
    occurrence replaced. *)
Definition Replace1 (style : CopyStyle) (s old new : string) : slice :=
  match Index s old with
  | None => copy_of style s
  | Some j => Some (take j s ++ new ++ drop (j + len old) s)
  end.

End Bytes.

(** ** Errors *)

Inductive Errno : Type :=
| ENOENT    (* no such file or directory *)
| EACCES    (* permission denied *)
| EISDIR
| EIO.

(** Go [error] values the handler meets.  [ErrImageDoesNotExist] is the
    sentinel of this program; a [PathError] is what [ioutil.ReadFile]
    returns; any other error is known by its message. *)
Inductive error : Type :=
| ErrImageDoesNotExist
| PathError (op path : string) (errno : Errno)
| errorString (msg : string).

Definition errno_text (e : Errno) : string :=
  match e with
  | ENOENT => "no such file or directory"
  | EACCES => "permission denied"
  | EISDIR => "is a directory"
  | EIO => "input/output error"
  end.


(** ** Collaborators of the handler *)

Definition ID := string.

Record Request : Type := mkRequest {
  RequestURI : string;
  Header : string -> list string   (* the values stored under a key *)
}.

Record url_URL : Type := mkURL {
  Scheme : string;
  Host : string;
  Path : string
}.

Record TileSize : Type := mkTileSize {
  Width : Z;
  ScaleFactors : list Z
}.

Record FeatureSet : Type := mkFeatureSet {
  RegionByPx : bool;
  RegionByPct : bool;
  SizeByWhListed : bool;
  SizeByW : bool;
  SizeByH : bool;
  SizeByPct : bool;
  SizeByWh : bool;
  SizeByForcedWh : bool;
  SizeAboveFull : bool;
  RotationBy90s : bool;
  RotationArbitrary : bool;
  Mirroring : bool;
  Default : bool;
  Color : bool;
  Gray : bool;
  Bitonal : bool;
  Jpg : bool;
  Png : bool;
  Gif : bool;
  Tif : bool;
  Jp2 : bool;
  Pdf : bool;
  Webp : bool;
  BaseUriRedirect : bool;
  Cors : bool;
  JsonldMediaType : bool;
  ProfileLinkHeader : bool;
  CanonicalLinkHeader : bool;
  TileSizes : list TileSize
}.

(** The descriptor [FeatureSet.Info()] returns; the handler fills in
    [ID], [Width] and [Height]. *)
Record Info_ : Type := mkInfo {
  info_ID : string;
  info_Width : Z;
  info_Height : Z;
  info_Tiles : list TileSize;
  info_Profile : list string
}.

Record Decoder : Type := mkDecoder {
  GetWidth : Z;
  GetHeight : Z
}.

Record ImageResource : Type := mkImageResource {
  res_ID : ID;
  res_Decoder : Decoder;
  res_FilePath : string
}.

(** A parsed command; the handler reads its [Format] only. *)
Record iiif_URL : Type := mkIIIFURL {
  url_Path : string;
  url_Size : Size;
  url_Format : string
}.

(** Decoded pixels, opaque to the handler. *)
Definition Image := string.

(** A compiled regular expression, by the two methods the handler calls. *)
Record Regexp : Type := mkRegexp {
  FindStringSubmatch : string -> option (list string);
  MatchString : string -> bool
}.

Record IIIFHandler : Type := mkIIIFHandler {
  Base : url_URL;
  BaseRegex : Regexp;
  BaseOnlyRegex : Regexp;
  FeatureSet_ : FeatureSet;
  InfoPathRegex : Regexp;
  TilePath : string
}.

(** *** What the handler does, as a trace *)

(** Operations on the [http.ResponseWriter]. *)
Inductive WriterOp : Type :=
| HeaderSet (key value : string)        (* w.Header().Set(key, value) *)
| WriteHeader (code : Z)                (* w.WriteHeader(code) *)
| Write (b : string)                    (* w.Write(b) *)
| http_Error (msg : string) (code : Z)
| http_NotFound
| http_Redirect (urlStr : string) (code : Z).

Inductive Call : Type :=
| CallNewImageResource (identifier : ID) (filepath : string)
| CallReadFile (name : string)
| CallMarshal (info : Info_)
| CallSendHeaders (filepath : string)
| CallApply (res : ImageResource) (u : iiif_URL)
| CallEncodeImage (img : Image) (format : string).

Inductive Event : Type :=
| Resp (op : WriterOp)                    (* something done to the writer *)
| log_Printf (msg : string)
| Called (c : Call) (err : option error)  (* a collaborator ran, with its error *)
| Panic (e : RuntimeError).

Coercion Resp : WriterOp >-> Event.

(** Functions and methods the handler calls whose code lives elsewhere
    (package [iiif], the image resource, the encoders, the Go library),
    and the file system.  [sendHeaders] and [EncodeImage] receive the
    response writer: what they do to it is part of their result. *)
Record Env : Type := mkEnv {
  ID_Path : ID -> string;
  ID_String : ID -> string;
  URL_String : url_URL -> string;
  error_text : string;       (* ErrImageDoesNotExist.Error() *)
  bytes_copy : Bytes.CopyStyle;   (* the release of package bytes *)
  NewImageResource : ID -> string -> ImageResource + error;
  ReadFile : string -> string + error;
  FeatureSet_Info : FeatureSet -> Info_;
  json_Marshal : Info_ -> string + error;
  NewURL : string -> iiif_URL;
  URL_Valid : iiif_URL -> bool;
  Supported : FeatureSet -> iiif_URL -> bool;
  sendHeaders : Request -> string -> list WriterOp * option error;
  Apply : ImageResource -> iiif_URL -> Image + error;
  TypeByExtension : string -> string;
  EncodeImage : Image -> string -> list WriterOp * option error
}.

(** [err.Error()]. *)
Definition Error (env : Env) (e : error) : string :=
  match e with
  | ErrImageDoesNotExist => error_text env
  | PathError op path errno => op ++ " " ++ path ++ ": " ++ errno_text errno
  | errorString msg => msg
  end.

(** ** Reading a trace as a response

    [net/http] sends the status line with the first call that needs it:
    an explicit [WriteHeader], the first [Write] (status 200), or one of
    the helpers [http.Error], [http.NotFound], [http.Redirect]; later
    attempts to set a status are ignored. *)

Definition commits (op : WriterOp) : option Z :=
  match op with
  | HeaderSet _ _ => None
  | WriteHeader code => Some code
  | Write _ => Some 200
  | http_Error _ code => Some code
  | http_NotFound => Some 404
  | http_Redirect _ code => Some code
  end.

Fixpoint committed (tr : list Event) : option Z :=
  match tr with
  | [] => None
  | Resp op :: tr' =>
      match commits op with
      | Some code => Some code
      | None => committed tr'
      end
  | _ :: tr' => committed tr'
  end.

Definition is_panic (e : Event) : bool :=
  match e with
  | Panic _ => true
  | _ => false
  end.

(** The status the client receives: the committed one; 200 when the
    handler returns without having written; none when the handler
    panicked before any status was sent. *)
Definition status_of (tr : list Event) : option Z :=
  match committed tr with
  | Some code => Some code
  | None => if existsb is_panic tr then None else Some 200
  end.

(** The [Content-Type] in the header map at the moment the status is
    sent ([None]: never set by the program). Keys are in canonical form. *)
Fixpoint content_type_from (cur : option string) (tr : list Event) : option string :=
  match tr with
  | [] => cur
  | Resp (HeaderSet key value) :: tr' =>
      if String.eqb key "Content-Type" then content_type_from (Some value) tr'
      else content_type_from cur tr'
  | Resp (http_Error _ _) :: _ => Some "text/plain; charset=utf-8"
  | Resp http_NotFound :: _ => Some "text/plain; charset=utf-8"
  | Resp _ :: _ => cur
  | _ :: tr' => content_type_from cur tr'
  end.

Definition content_type_of (tr : list Event) : option string :=
  content_type_from None tr.

Definition newline : string := String "010" EmptyString.

(** The bytes handed to [w.Write], in order: those the handler writes
    itself and those the helpers of [net/http] write for it.
    [http.Error] prints its message and a newline; [http.NotFound] is
    [http.Error] with the message "404 page not found".  [http.Redirect]
    ends with a short note made from the request method and the cleaned
    URL, neither of which is modelled: [note urlStr code] stands for
    it. *)
Fixpoint payload (note : string -> Z -> string) (tr : list Event) : string :=
  match tr with
  | [] => EmptyString
  | Resp (Write b) :: tr' => b ++ payload note tr'
  | Resp (http_Error msg _) :: tr' => msg ++ newline ++ payload note tr'
  | Resp http_NotFound :: tr' =>
      "404 page not found" ++ newline ++ payload note tr'
  | Resp (http_Redirect urlStr code) :: tr' =>
      note urlStr code ++ payload note tr'
  | _ :: tr' => payload note tr'
  end.

(** The note of a redirect that answers a request other than a GET:
    [http.Redirect] writes none. *)
Definition no_note : string -> Z -> string := fun _ _ => EmptyString.

(** The errors collaborators returned during the request. *)
Fixpoint errors_of (tr : list Event) : list (Call * error) :=
  match tr with
  | [] => []
  | Called c (Some e) :: tr' => (c, e) :: errors_of tr'
  | _ :: tr' => errors_of tr'
  end.

(** ** The handler (rais-server/iiif_handler.go) *)

Definition acceptsLD (req : Request) : bool :=
  existsb
    (fun h =>
       existsb (fun accept => String.eqb accept "application/ld+json")
               (Split h comma))
    (Header req "Accept").

Definition newImageResError (env : Env) (err : error) : list Event :=
  match err with
  | ErrImageDoesNotExist =>
      [Resp (http_Error "Image resource does not exist" 404)]
  | _ => [Resp (http_Error (Error env err) 500)]
  end.

Definition loadInfoJSONOverride (ih : IIIFHandler) (env : Env)
    (identifier : ID) (filepath : string) : list Event * Bytes.slice :=
  let name := filepath ++ "-info.json" in
  match ReadFile env name with
  | inr err => ([Called (CallReadFile name) (Some err)], Bytes.nil)
  | inl json =>
      let id := URL_String env (Base ih) ++ "/" ++ ID_String env identifier in
      ([Called (CallReadFile name) None],
       Bytes.Replace1 (bytes_copy env) json "%ID%" id)
  end.

Definition buildInfoJSON (ih : IIIFHandler) (env : Env)
    (identifier : ID) (filepath : string)
    : list Event * (Bytes.slice * option error) :=
  let info := FeatureSet_Info env (FeatureSet_ ih) in
  match NewImageResource env identifier filepath with
  | inr err =>
      (Called (CallNewImageResource identifier filepath) (Some err)
         :: newImageResError env err,
       (Bytes.nil, Some err))
  | inl res =>
      let info :=
        mkInfo (URL_String env (Base ih) ++ "/" ++ ID_String env (res_ID res))
               (GetWidth (res_Decoder res))
               (GetHeight (res_Decoder res))
               (info_Tiles info) (info_Profile info) in
      let opened := Called (CallNewImageResource identifier filepath) None in
      match json_Marshal env info with
      | inr err =>
          ([opened;
            Called (CallMarshal info) (Some err);
            log_Printf ("ERROR!  Unable to marshal IIIFInfo response: "
                          ++ Error env err);
            Resp (http_Error "Server error" 500)],
           (Bytes.nil, Some err))
      | inl json =>
          ([opened; Called (CallMarshal info) None], (Some json, None))
      end
  end.

Definition Info (ih : IIIFHandler) (env : Env) (req : Request)
    (identifier : ID) (filepath : string) : list Event :=
  let '(loaded, json) := loadInfoJSONOverride ih env identifier filepath in
  let '(built, json, err) :=
    match json with
    | None =>
        let '(evs, (json, err)) := buildInfoJSON ih env identifier filepath in
        (evs, json, err)
    | Some _ => ([], json, None)
    end in
  match err with
  | Some _ => loaded ++ built
  | None =>
      let ct := if acceptsLD req then "application/ld+json"
                else "application/json" in
      loaded ++ built ++
        [Resp (HeaderSet "Content-Type" ct);
         Resp (HeaderSet "Access-Control-Allow-Origin" "*");
         Resp (Write (Bytes.to_string json))]
  end.

Definition Command (ih : IIIFHandler) (env : Env) (req : Request)
    (u : iiif_URL) (res : ImageResource) : list Event :=
  let '(sent, err) := sendHeaders env req (res_FilePath res) in
  Called (CallSendHeaders (res_FilePath res)) err :: map Resp sent ++
  match err with
  | Some _ => []
  | None =>
      if negb (Supported env (FeatureSet_ ih) u)
      then [Resp (http_Error "Feature not supported" 501)]
      else
        match Apply env res u with
        | inr err =>
            [Called (CallApply res u) (Some err);
             Resp (http_Error (Error env err) 500)]
        | inl img =>
            let '(encoded, err) := EncodeImage env img (url_Format u) in
            Called (CallApply res u) None
              :: Resp (HeaderSet "Content-Type"
                         (TypeByExtension env ("." ++ url_Format u)))
              :: Called (CallEncodeImage img (url_Format u)) err
              :: map Resp encoded ++
            match err with
            | Some e =>
                [Resp (http_Error "Unable to encode" 500);
                 log_Printf ("Unable to encode to " ++ url_Format u ++ ": "
                               ++ Error env e)]
            | None => []
            end
        end
  end.

Definition Route (ih : IIIFHandler) (env : Env) (req : Request) : list Event :=
  let p := RequestURI req in
  match FindStringSubmatch (BaseRegex ih) p with
  | None => [Resp http_NotFound]
  | Some parts =>
      match index parts 1 with
      | Panics e => [Panic e]
      | Returns identifier =>
          let filepath := TilePath ih ++ "/" ++ ID_Path env identifier in
          if MatchString (BaseOnlyRegex ih) p then
            [Resp (http_Redirect (p ++ "/info.json") 303)]
          else if MatchString (InfoPathRegex ih) p then
            Info ih env req identifier filepath
          else
            match NewImageResource env identifier filepath with
            | inr err =>
                Called (CallNewImageResource identifier filepath) (Some err)
                  :: newImageResError env err
            | inl res =>
                Called (CallNewImageResource identifier filepath) None ::
                let u := NewURL env p in
                if URL_Valid env u then Command ih env req u res
                else [Resp (http_Error "Invalid IIIF request" 400)]
            end
      end
  end.

(** Where [Route] sends a request, before any collaborator runs. *)
Inductive Dispatch : Type :=
| NoMatch
| BadSubmatch (e : RuntimeError)
| BaseOnly
| InfoRequest (identifier : ID) (filepath : string)
| CommandRequest (identifier : ID) (filepath : string).

Definition dispatch (ih : IIIFHandler) (env : Env) (req : Request) : Dispatch :=
  let p := RequestURI req in
  match FindStringSubmatch (BaseRegex ih) p with
  | None => NoMatch
  | Some parts =>
      match index parts 1 with
      | Panics e => BadSubmatch e
      | Returns identifier =>
          let filepath := TilePath ih ++ "/" ++ ID_Path env identifier in
          if MatchString (BaseOnlyRegex ih) p then BaseOnly
          else if MatchString (InfoPathRegex ih) p
               then InfoRequest identifier filepath
               else CommandRequest identifier filepath
      end
  end.

(** ** The three regular expressions of the handler

    [NewIIIFHandler] compiles [^<path>/([^/]+)], [^<path>/[^/]+$] and
    [^<path>/([^/]+)/info.json$], where [<path>] is the path of the base
    URL, pasted into the pattern as it is.  The matchers below are those
    patterns for a [<path>] that is free of regexp metacharacters
    ([regexp_literal]); the dot of [info.json] is the regexp dot: any
    one UTF-8 character but a newline. *)

Module Regex.

Definition metachar (c : ascii) : bool :=
  existsb (Ascii.eqb c)
    ["\"; "."; "+"; "*"; "?"; "("; ")"; "|"; "["; "]"; "{"; "}"; "^"; "$"]%char.

Fixpoint regexp_literal (s : string) : bool :=
  match s with
  | EmptyString => true
  | String c s' => (code c <? 128) && negb (metachar c) && regexp_literal s'
  end.

Fixpoint strip_prefix (pre s : string) : option string :=
  match pre, s with
  | EmptyString, _ => Some s
  | String a pre', String b s' =>
      if Ascii.eqb a b then strip_prefix pre' s' else None
  | String _ _, EmptyString => None
  end.

(** The longest prefix without a slash, and what follows it. *)
Fixpoint span_segment (s : string) : string * string :=
  match s with
  | EmptyString => (EmptyString, EmptyString)
  | String c s' =>
      if Ascii.eqb c "/" then (EmptyString, s)
      else let '(seg, rest) := span_segment s' in (String c seg, rest)
  end.

Definition in_range (lo hi : Z) (c : ascii) : bool :=
  (lo <=? code c) && (code c <=? hi).

(** Bytes taken by the first character of [s], as
    [utf8.DecodeRuneInString] counts them: an ill-formed byte counts
    for one character. *)
Definition rune_width (s : string) : nat :=
  match s with
  | EmptyString => 0
  | String b0 r =>
      let x := code b0 in
      if (x <? 194) || (244 <? x) then 1%nat
      else
        let lo := if x =? 224 then 160 else if x =? 240 then 144 else 128 in
        let hi := if x =? 237 then 159 else if x =? 244 then 143 else 191 in
        match r with
        | EmptyString => 1%nat
        | String b1 r1 =>
            if negb (in_range lo hi b1) then 1%nat
            else if x <? 224 then 2%nat
            else
              match r1 with
              | EmptyString => 1%nat
              | String b2 r2 =>
                  if negb (in_range 128 191 b2) then 1%nat
                  else if x <? 240 then 3%nat
                  else
                    match r2 with
                    | EmptyString => 1%nat
                    | String b3 _ =>
                        if in_range 128 191 b3 then 4%nat else 1%nat
                    end
              end
        end
  end.

(** [^<path>/([^/]+)] at the start of [p]: the segment matched by the
    group and the rest of [p]. *)
Definition match_ident (path p : string) : option (string * string) :=
  match strip_prefix (path ++ "/") p with
  | None => None
  | Some r =>
      let '(seg, rest) := span_segment r in
      match seg with
      | EmptyString => None
      | _ => Some (seg, rest)
      end
  end.

(** [/info.json$] *)
Definition match_info_tail (rest : string) : bool :=
  match strip_prefix "/info" rest with
  | None => false
  | Some r =>
      match r with
      | EmptyString => false
      | String c _ =>
          negb (Ascii.eqb c "010") && String.eqb (drop (rune_width r) r) "json"
      end
  end.

Definition is_some {A : Type} (o : option A) : bool :=
  match o with
  | Some _ => true
  | None => false
  end.

Definition base (path : string) : Regexp :=
  let find p :=
    match match_ident path p with
    | Some (seg, _) => Some [path ++ "/" ++ seg; seg]
    | None => None
    end in
  mkRegexp find (fun p => is_some (find p)).

Definition base_only (path : string) : Regexp :=
  let find p :=
    match match_ident path p with
    | Some (_, EmptyString) => Some [p]
    | _ => None
    end in
  mkRegexp find (fun p => is_some (find p)).

Definition info_path (path : string) : Regexp :=
  let find p :=
    match match_ident path p with
    | Some (seg, rest) => if match_info_tail rest then Some [p; seg] else None
    | None => None
    end in
  mkRegexp find (fun p => is_some (find p)).

End Regex.

Definition NewIIIFHandler (u : url_URL) (widths : list Z) (tp : string)
    : IIIFHandler :=
  let sf := [1; 2; 4; 8; 16; 32] in
  let fs :=
    {| RegionByPx := true; RegionByPct := true;
       SizeByWhListed := true; SizeByW := true; SizeByH := true;
       SizeByPct := true; SizeByWh := true; SizeByForcedWh := true;
       SizeAboveFull := true;
       RotationBy90s := true; RotationArbitrary := false; Mirroring := true;
       Default := true; Color := true; Gray := true; Bitonal := true;
       Jpg := true; Png := true; Gif := true; Tif := true;
       Jp2 := false; Pdf := false; Webp := false;
       BaseUriRedirect := true; Cors := true; JsonldMediaType := true;
       ProfileLinkHeader := false; CanonicalLinkHeader := false;
       TileSizes := map (fun val => mkTileSize val sf) widths |} in
  {| Base := u;
     BaseRegex := Regex.base (Path u);
     BaseOnlyRegex := Regex.base_only (Path u);
     InfoPathRegex := Regex.info_path (Path u);
     TilePath := tp;
     FeatureSet_ := fs |}.

(** ** Vocabulary of the properties *)


(** *** The Accept header as the design document reads it

    "The Accept header lists the media type": an Accept value is a
    comma-separated list of media ranges, each with optional parameters
    after a ";"; blanks around an element do not count.  These
    definitions follow those words, not the code; [acceptsLD] is
    compared with them. *)








(** [pre] is what comes before the first occurrence of [old] in [s]. *)
Definition first_occurrence (old pre post s : string) : Prop :=
  s = pre ++ old ++ post
  /\ forall pre' post', s = pre' ++ old ++ post' ->
                        (String.length pre <= String.length pre')%nat.

Definition occurs (old s : string) : Prop :=
  exists pre post, s = pre ++ old ++ post.

(** Collaborators that leave the status to the handler: a [sendHeaders]
    that reports no error has not sent a status, and an encoder that
    fails has not written anything yet. *)
Definition leaves_status (env : Env) : Prop :=
  (forall req fp sent,
      sendHeaders env req fp = (sent, None) -> committed (map Resp sent) = None)
  /\ (forall img fmt encoded e,
        EncodeImage env img fmt = (encoded, Some e) ->
        committed (map Resp encoded) = None).

Definition is_open (e : Event) : bool :=
  match e with
  | Called (CallNewImageResource _ _) _ => true
  | _ => false
  end.

Definition is_decode (e : Event) : bool :=
  match e with
  | Called (CallApply _ _) _ => true
  | Called (CallEncodeImage _ _) _ => true
  | _ => false
  end.

Definition is_rejection (e : Event) : bool :=
  match e with
  | Resp (http_Error _ code) => (code =? 400) || (code =? 501)
  | _ => false
  end.

(** Some event satisfying [first] comes before one satisfying [second]. *)
Fixpoint precedes (first second : Event -> bool) (tr : list Event) : bool :=
  match tr with
  | [] => false
  | e :: tr' => (first e && existsb second tr') || precedes first second tr'
  end.


(** The descriptor [buildInfoJSON] marshals for an open image. *)
Definition descriptor (ih : IIIFHandler) (env : Env) (res : ImageResource)
    : Info_ :=
  mkInfo (URL_String env (Base ih) ++ "/" ++ ID_String env (res_ID res))
         (GetWidth (res_Decoder res))
         (GetHeight (res_Decoder res))
         (info_Tiles (FeatureSet_Info env (FeatureSet_ ih)))
         (info_Profile (FeatureSet_Info env (FeatureSet_ ih))).

(** How [Info] ends once it has a document [json] to send. *)
Definition send_descriptor (req : Request) (json : string) : list Event :=
  [Resp (HeaderSet "Content-Type"
           (if acceptsLD req then "application/ld+json" else "application/json"));
   Resp (HeaderSet "Access-Control-Allow-Origin" "*");
   Resp (Write json)].

(** What [Info] does after the override turned out to be [nil]. *)
Definition generated (ih : IIIFHandler) (env : Env) (req : Request)
    (id : ID) (fp : string) : list Event :=
  match NewImageResource env id fp with
  | inr err =>
      Called (CallNewImageResource id fp) (Some err) :: newImageResError env err
  | inl res =>
      Called (CallNewImageResource id fp) None ::
      match json_Marshal env (descriptor ih env res) with
      | inr err =>
          [Called (CallMarshal (descriptor ih env res)) (Some err);
           log_Printf ("ERROR!  Unable to marshal IIIFInfo response: "
                         ++ Error env err);
           Resp (http_Error "Server error" 500)]
      | inl json =>
          Called (CallMarshal (descriptor ih env res)) None
            :: send_descriptor req json
      end
  end.

(** ** A server to run the handler on *)

Definition demo_base : url_URL := mkURL "http" "localhost:12415" "/iiif".

Definition demo_handler : IIIFHandler :=
  NewIIIFHandler demo_base [256; 512] "/var/local/images".

Definition demo_image : ImageResource :=
  mkImageResource "abc" (mkDecoder 800 600) "/var/local/images/abc".

(** A handler put together by hand, whose base pattern has no group
    ([^/iiif/[^/]+$]): a match has one submatch only. *)
Definition ungrouped_handler : IIIFHandler :=
  {| Base := demo_base;
     BaseRegex := Regex.base_only (Path demo_base);
     BaseOnlyRegex := Regex.base_only (Path demo_base);
     FeatureSet_ := FeatureSet_ demo_handler;
     InfoPathRegex := Regex.info_path (Path demo_base);
     TilePath := "/var/local/images" |}.

(** What the collaborators answer in one run. *)
Record Scenario : Type := mkScenario {
  library : Bytes.CopyStyle;
  override : string + error;            (* reading the override file *)
  image : ImageResource + error;        (* opening the image *)
  marshalled : string + error;
  valid : bool;
  supported : bool;
  headers : list WriterOp * option error;
  applied : Image + error;
  encoded : list WriterOp * option error
}.

Definition world (sc : Scenario) : Env :=
  {| ID_Path := fun id => id;
     ID_String := fun id => id;
     URL_String := fun u => Scheme u ++ "://" ++ Host u ++ Path u;
     error_text := "Image file does not exist";
     bytes_copy := library sc;
     NewImageResource := fun _ _ => image sc;
     ReadFile := fun _ => override sc;
     FeatureSet_Info := fun fs => mkInfo "" 0 0 (TileSizes fs) ["level2"];
     json_Marshal := fun _ => marshalled sc;
     NewURL := fun p => mkIIIFURL p (zeroSize STFull) "jpg";
     URL_Valid := fun _ => valid sc;
     Supported := fun _ _ => supported sc;
     sendHeaders := fun _ _ => headers sc;
     Apply := fun _ _ => applied sc;
     TypeByExtension := fun _ => "image/jpeg";
     EncodeImage := fun _ _ => encoded sc |}.

(** Everything in order: no override, the image opens, the command is
    valid and supported, the pixels are encoded. *)
Definition fine : Scenario :=
  {| library := Bytes.AppendToNil;
     override := inr (PathError "open" "/var/local/images/abc-info.json" ENOENT);
     image := inl demo_image;
     marshalled := inl "{descriptor}";
     valid := true;
     supported := true;
     headers := ([HeaderSet "Last-Modified" "Mon, 02 Jan 2006 15:04:05 GMT"], None);
     applied := inl "pixels";
     encoded := ([Write "jpeg bytes"], None) |}.

Definition with_override (v : string + error) (sc : Scenario) : Scenario :=
  mkScenario (library sc) v (image sc) (marshalled sc) (valid sc) (supported sc)
             (headers sc) (applied sc) (encoded sc).

Definition with_image (v : ImageResource + error) (sc : Scenario) : Scenario :=
  mkScenario (library sc) (override sc) v (marshalled sc) (valid sc) (supported sc)
             (headers sc) (applied sc) (encoded sc).

Definition with_marshalled (v : string + error) (sc : Scenario) : Scenario :=
  mkScenario (library sc) (override sc) (image sc) v (valid sc) (supported sc)
             (headers sc) (applied sc) (encoded sc).

Definition with_valid (v : bool) (sc : Scenario) : Scenario :=
  mkScenario (library sc) (override sc) (image sc) (marshalled sc) v (supported sc)
             (headers sc) (applied sc) (encoded sc).

Definition with_supported (v : bool) (sc : Scenario) : Scenario :=
  mkScenario (library sc) (override sc) (image sc) (marshalled sc) (valid sc) v
             (headers sc) (applied sc) (encoded sc).

Definition with_headers (v : list WriterOp * option error) (sc : Scenario)
    : Scenario :=
  mkScenario (library sc) (override sc) (image sc) (marshalled sc) (valid sc) (supported sc)
             v (applied sc) (encoded sc).

Definition with_applied (v : Image + error) (sc : Scenario) : Scenario :=
  mkScenario (library sc) (override sc) (image sc) (marshalled sc) (valid sc) (supported sc)
             (headers sc) v (encoded sc).

Definition with_encoded (v : list WriterOp * option error) (sc : Scenario)
    : Scenario :=
  mkScenario (library sc) (override sc) (image sc) (marshalled sc) (valid sc) (supported sc)
             (headers sc) (applied sc) v.

Definition with_library (v : Bytes.CopyStyle) (sc : Scenario) : Scenario :=
  mkScenario v (override sc) (image sc) (marshalled sc) (valid sc)
             (supported sc) (headers sc) (applied sc) (encoded sc).

(** No image file behind any identifier. *)
Definition no_image : Env := world (with_image (inr ErrImageDoesNotExist) fine).

Definition get (uri : string) (accept : list string) : Request :=
  mkRequest uri (fun key => if String.eqb key "Accept" then accept else []).

Definition command_request : Request :=
  get "/iiif/abc/full/full/0/default.jpg" [].

Definition info_request (accept : list string) : Request :=
  get "/iiif/abc/info.json" accept.

Definition abc_path : string := "/var/local/images/abc".

(** The command path fails the grammar check. *)
Definition bad_syntax : Env := world (with_valid false fine).

Definition unsupported : Env := world (with_supported false fine).

Definition apply_fails : Env :=
  world (with_applied (inr (errorString "unable to decode")) fine).

Definition encode_fails : Env :=
  world (with_encoded ([], Some (errorString "unsupported format")) fine).

(** [sendHeaders] answers a conditional request with 304 and reports it
    as an error; the command asks for an unsupported feature. *)
Definition not_modified : Env :=
  world (with_headers ([WriteHeader 304], Some (errorString "Not modified"))
                      (with_supported false fine)).

(** The encoder fails after part of the image went out. *)
Definition encoder_breaks_midway : Env :=
  world (with_encoded ([Write "jpeg by"], Some (errorString "broken pipe")) fine).

(** [sendHeaders] reports no error but has sent the status line
    already; the encoder then fails without having written. *)
Definition headers_flushed : Env :=
  world (with_headers ([WriteHeader 200], None)
           (with_encoded ([], Some (errorString "unsupported format")) fine)).


(** The override file is there, readable, and empty. *)
Definition empty_override : Env := world (with_override (inl "") fine).

Definition empty_override_no_image : Env :=
  world (with_image (inr ErrImageDoesNotExist) (with_override (inl "") fine)).

(** The same file, with a library that allocates its copies. *)
Definition empty_override_allocated : Env :=
  world (with_library Bytes.MakeAndCopy (with_override (inl "") fine)).

Definition overridden : Env :=
  world (with_override (inl "{id: %ID%, width: 640, see: %ID%}") fine).

Definition marshal_fails : Env :=
  world (with_marshalled (inr (errorString "unsupported value")) fine).

(** ** More vocabulary *)

(** The input without its leading "!". *)
Definition unbang (p : string) : string :=
  match p with
  | String a r => if Ascii.eqb a "!" then r else p
  | EmptyString => p
  end.

Fixpoint all_digits (s : string) : bool :=
  match s with
  | EmptyString => true
  | String c s' => is_digit c && all_digits s'
  end.

(** The number a string of decimal digits writes, after the digits
    that gave [acc]. *)
Fixpoint decimal_from (acc : Z) (s : string) : Z :=
  match s with
  | EmptyString => acc
  | String c s' => decimal_from (acc * 10 + digit_val c) s'
  end.

Definition decimal_value (s : string) : Z := decimal_from 0 s.

(** The largest [int]. *)
Definition MaxInt : Z := 2 ^ 63 - 1.

Definition is_read (e : Event) : bool :=
  match e with
  | Called (CallReadFile _) _ => true
  | _ => false
  end.

Definition is_response (e : Event) : bool :=
  match e with
  | Resp _ => true
  | _ => false
  end.

Definition count (f : Event -> bool) (tr : list Event) : nat :=
  List.length (filter f tr).

(** The [Access-Control-Allow-Origin] in the header map at the moment
    the status is sent; the helpers of [net/http] do not set it. *)
Fixpoint allow_origin_from (cur : option string) (tr : list Event) : option string :=
  match tr with
  | [] => cur
  | Resp (HeaderSet key value) :: tr' =>
      if String.eqb key "Access-Control-Allow-Origin"
      then allow_origin_from (Some value) tr'
      else allow_origin_from cur tr'
  | Resp _ :: _ => cur
  | _ :: tr' => allow_origin_from cur tr'
  end.

Definition allow_origin_of (tr : list Event) : option string :=
  allow_origin_from None tr.

Definition is_apply (e : Event) : bool :=
  match e with
  | Called (CallApply _ _) _ => true
  | _ => false
  end.

Definition is_encode (e : Event) : bool :=
  match e with
  | Called (CallEncodeImage _ _) _ => true
  | _ => false
  end.

(** ** The handler before info.json overrides (the copy kept in dev.sh)

    The earlier [Route] opens the image before it looks at the kind of
    path, and releases it when it returns ([defer]); its [Info] asks the
    image for its dimensions; its [Command] always encodes JPEG. *)

Module Earlier.

Record Rectangle : Type := mkRectangle {
  MinX : Z;
  MinY : Z;
  MaxX : Z;
  MaxY : Z
}.

Definition Dx (r : Rectangle) : Z := MaxX r - MinX r.

Definition Dy (r : Rectangle) : Z := MaxY r - MinY r.

(** The image behind a resource, by what [GetDimensions] answers. *)
Record IIIFImage : Type := mkIIIFImage {
  GetDimensions : Rectangle + error
}.

Record Resource : Type := mkResource {
  ID_ : ID;
  Image_ : IIIFImage;
  FilePath : string
}.

(** A step of the earlier handler: an event of the kind the current
    handler has too, or a call only the earlier one makes. *)
Inductive Step : Type :=
| Did (e : Event)
| CalledGetDimensions (err : option error)
| CalledApply (err : option error)
| CalledEncode (err : option error)     (* jpeg.Encode *)
| CleanupResources (id : ID)            (* res.Image.CleanupResources() *)
| log_Println (msg : string).

(** The collaborators: those of the current handler that the earlier
    one shares ([shared]: paths, marshalling, [NewURL], [Supported],
    [sendHeaders]), and its own. *)
Record World : Type := mkWorld {
  shared : Env;
  OpenImageResource : ID -> string -> Resource + error;  (* NewImageResource *)
  ApplyTo : Resource -> iiif_URL -> Image + error;       (* res.Apply *)
  jpeg_Encode : Image -> list WriterOp * option error;
  GoSyntax : ID -> string                                (* the verb %#v *)
}.

Definition writes (ops : list WriterOp) : list Step :=
  map (fun op => Did (Resp op)) ops.

Definition Info (ih : IIIFHandler) (env : World) (req : Request)
    (res : Resource) : list Step :=
  match GetDimensions (Image_ res) with
  | inr err =>
      [CalledGetDimensions (Some err);
       Did (Resp (http_Error ("Unable to read image dimensions for "
                                ++ GoSyntax env (ID_ res)) 500))]
  | inl rect =>
      let info := FeatureSet_Info (shared env) (FeatureSet_ ih) in
      let info :=
        mkInfo (URL_String (shared env) (Base ih) ++ "/"
                  ++ ID_String (shared env) (ID_ res))
               (Dx rect) (Dy rect) (info_Tiles info) (info_Profile info) in
      CalledGetDimensions None ::
      match json_Marshal (shared env) info with
      | inr err =>
          [Did (Called (CallMarshal info) (Some err));
           Did (log_Printf ("ERROR!  Unable to marshal IIIFInfo response: "
                              ++ Error (shared env) err));
           Did (Resp (http_Error "Server error" 500))]
      | inl json =>
          let ct := if acceptsLD req then "application/ld+json"
                    else "application/json" in
          [Did (Called (CallMarshal info) None);
           Did (Resp (HeaderSet "Content-Type" ct));
           Did (Resp (HeaderSet "Access-Control-Allow-Origin" "*"));
           Did (Resp (Write json))]
      end
  end.

Definition Command (ih : IIIFHandler) (env : World) (req : Request)
    (u : iiif_URL) (res : Resource) : list Step :=
  let '(sent, err) := sendHeaders (shared env) req (FilePath res) in
  Did (Called (CallSendHeaders (FilePath res)) err) :: writes sent ++
  match err with
  | Some _ => []
  | None =>
      if negb (Supported (shared env) (FeatureSet_ ih) u)
      then [Did (Resp (http_Error "Feature not supported" 501))]
      else
        match ApplyTo env res u with
        | inr err =>
            [CalledApply (Some err);
             Did (Resp (http_Error (Error (shared env) err) 500))]
        | inl img =>
            let '(encoded, err) := jpeg_Encode env img in
            CalledApply None :: CalledEncode err :: writes encoded ++
            match err with
            | Some e =>
                [Did (Resp (http_Error "Unable to encode jpeg" 500));
                 log_Println ("Unable to encode JPEG: "
                                ++ Error (shared env) e)]
            | None => []
            end
        end
  end.

Definition Route (ih : IIIFHandler) (env : World) (req : Request) : list Step :=
  let p := RequestURI req in
  match FindStringSubmatch (BaseRegex ih) p with
  | None => [Did (Resp http_NotFound)]
  | Some parts =>
      match index parts 1 with
      | Panics e => [Did (Panic e)]
      | Returns identifier =>
          let filepath :=
            TilePath ih ++ "/" ++ ID_Path (shared env) identifier in
          match OpenImageResource env identifier filepath with
          | inr err =>
              [Did (Called (CallNewImageResource identifier filepath) (Some err));
               Did (Resp (match err with
                          | ErrImageDoesNotExist =>
                              http_Error "Image resource does not exist" 404
                          | _ => http_Error (Error (shared env) err) 500
                          end))]
          | inl res =>
              Did (Called (CallNewImageResource identifier filepath) None) ::
              (if MatchString (BaseOnlyRegex ih) p then
                 [Did (Resp (http_Redirect (p ++ "/info.json") 303))]
               else if MatchString (InfoPathRegex ih) p then
                 Info ih env req res
               else
                 let u := NewURL (shared env) p in
                 if URL_Valid (shared env) u then Command ih env req u res
                 else [Did (Resp (http_Error "Invalid IIIF request" 400))])
              ++ [CleanupResources (ID_ res)]   (* the deferred call *)
          end
      end
  end.

(** The events of a trace that the current handler has too. *)
Fixpoint shown (tr : list Step) : list Event :=
  match tr with
  | [] => []
  | Did e :: tr' => e :: shown tr'
  | _ :: tr' => shown tr'
  end.

Definition is_cleanup (s : Step) : bool :=
  match s with
  | CleanupResources _ => true
  | _ => false
  end.

Definition is_opened (s : Step) : bool :=
  match s with
  | Did (Called (CallNewImageResource _ _) None) => true
  | _ => false
  end.

(** A server for the earlier handler: the image opens as [image]. *)
Definition server (sc : Scenario) (image : Resource + error) : World :=
  {| shared := world sc;
     OpenImageResource := fun _ _ => image;
     ApplyTo := fun _ _ => applied sc;
     jpeg_Encode := fun _ => encoded sc;
     GoSyntax := fun id => id |}.

Definition demo_resource : Resource :=
  mkResource "abc" (mkIIIFImage (inl (mkRectangle 0 0 800 600)))
             "/var/local/images/abc".

End Earlier.

(** * Properties *)

(** ** The size of a request *)

(** C2. [Valid] is the per-tag invariant and nothing else: [STFull] is
    always valid; [STScaleToWidth] needs [W > 0]; [STScaleToHeight] needs
    [H > 0]; [STScalePercent] needs [Percent > 0]; [STExact] and
    [STBestFit] need both [W > 0] and [H > 0]; every other tag, [STNone]
    included, is invalid.  In particular [ScaleToWidth{0}],
    [ScalePercent{0}] and [Exact{150,0}] are invalid. *)
Theorem Valid_per_tag :
  (forall s : Size,
     Valid s = true <->
     (Type_ s = STFull
      \/ (Type_ s = STScaleToWidth /\ 0 < W s)
      \/ (Type_ s = STScaleToHeight /\ 0 < H s)
      \/ (Type_ s = STScalePercent /\ (zero <? Percent s)%float = true)
      \/ ((Type_ s = STExact \/ Type_ s = STBestFit) /\ 0 < W s /\ 0 < H s)))
  /\ (forall pct w h, Valid (mkSize STFull pct w h) = true)
  /\ (forall pct w h, Valid (mkSize STNone pct w h) = false)
  /\ (forall pct h, Valid (mkSize STScaleToWidth pct 0 h) = false)
  /\ (forall w h, Valid (mkSize STScalePercent zero w h) = false)
  /\ (forall pct, Valid (mkSize STExact pct 150 0) = false).
Proof.
  split; [| repeat split; intros; reflexivity].
  intros [t pct w h]; unfold Valid; cbn [Type_ W H Percent].
  unfold STFull, STScaleToWidth, STScaleToHeight, STScalePercent,
    STExact, STBestFit.
  destruct (Z.eqb_spec t 1) as [-> | n1]; [intuition |].
  destruct (Z.eqb_spec t 2) as [-> | n2].
  { rewrite Z.ltb_lt. intuition; try discriminate. }
  destruct (Z.eqb_spec t 3) as [-> | n3].
  { rewrite Z.ltb_lt. intuition; try discriminate. }
  destruct (Z.eqb_spec t 4) as [-> | n4].
  { intuition; try discriminate. }
  destruct (Z.eqb_spec t 5) as [-> | n5].
  { cbn [orb]. rewrite andb_true_iff, !Z.ltb_lt. intuition; try discriminate. }
  destruct (Z.eqb_spec t 6) as [-> | n6].
  { cbn [orb]. rewrite andb_true_iff, !Z.ltb_lt. intuition; try discriminate. }
  cbn [orb]. split; [discriminate |]. intuition.
Qed.

(** *** The number parsers on a few inputs *)

Example Atoi_examples :
  Atoi "150" = (150, None)
  /\ Atoi "-75" = (-75, None)
  /\ Atoi "" = (0, Some ErrSyntax)
  /\ Atoi "15o" = (0, Some ErrSyntax)
  /\ Atoi "9223372036854775807" = (9223372036854775807, None)
  /\ Atoi "9223372036854775808" = (9223372036854775807, Some ErrRange)
  /\ Atoi "-9223372036854775809" = (-9223372036854775808, Some ErrRange).
Proof. repeat split. Qed.

Example ParseFloat_examples :
  ParseFloat "50" = (50%float, None)
  /\ ParseFloat "12.5" = (12.5%float, None)
  /\ ParseFloat "1.5e3" = (1500%float, None)
  /\ ParseFloat ".5" = (0.5%float, None)
  /\ ParseFloat "-0" = (neg_zero, None)
  /\ ParseFloat "1e-400" = (zero, None)
  /\ ParseFloat "1e400" = (infinity, Some ErrRange)
  /\ ParseFloat "Infinity" = (infinity, None)
  /\ ParseFloat "fifty" = (zero, Some ErrSyntax)
  /\ ParseFloat "" = (zero, Some ErrSyntax).
Proof. repeat split; vm_compute; reflexivity. Qed.

(** *** Splitting at commas *)

Lemma Split_not_nil (s : string) (c : ascii) : Split s c <> [].
Proof.
  destruct s as [| a s]; cbn; [discriminate |].
  destruct (Ascii.eqb a c); [discriminate |].
  destruct (Split s c); discriminate.
Qed.

Lemma Split_without (s : string) (c : ascii) :
  contains s c = false -> Split s c = [s].
Proof.
  induction s as [| a s IH]; cbn; [reflexivity |].
  intros Hc. apply orb_false_iff in Hc as [Ha Hs].
  rewrite Ha, (IH Hs). reflexivity.
Qed.

Lemma Split_at_first (w h : string) (c : ascii) :
  contains w c = false ->
  Split (w ++ String c h) c = w :: Split h c.
Proof.
  induction w as [| a w IH]; cbn.
  - intros _. rewrite Ascii.eqb_refl. reflexivity.
  - intros Hc. apply orb_false_iff in Hc as [Ha Hw].
    rewrite Ha, (IH Hw). reflexivity.
Qed.

Lemma contains_app (w h : string) (c : ascii) :
  contains (w ++ h) c = contains w c || contains h c.
Proof.
  induction w as [| a w IH]; cbn; [reflexivity |].
  rewrite IH. apply orb_assoc.
Qed.

(** A string that [Split] cuts in two or more pieces holds a comma. *)
Lemma Split_two_contains (s : string) (c : ascii) (v0 v1 : string) (vs : list string) :
  Split s c = v0 :: v1 :: vs -> contains s c = true.
Proof.
  destruct (contains s c) eqn:Hc; [reflexivity |].
  rewrite (Split_without _ _ Hc). discriminate.
Qed.

Lemma HasPrefix_before (w h pre : string) (c : ascii) :
  contains pre c = false ->
  Bytes.HasPrefix (w ++ String c h) pre = Bytes.HasPrefix w pre.
Proof.
  revert w. induction pre as [| a pre IH]; intros w Hc.
  - destruct w; reflexivity.
  - cbn in Hc. apply orb_false_iff in Hc as [Ha Hpre].
    destruct w as [| b w]; cbn.
    + rewrite Ha. reflexivity.
    + rewrite (IH w Hpre). reflexivity.
Qed.

(** *** The body of [StringToSize], by cases *)

(** The test [len(p) > 4 && p[0:4] == "pct:"]. *)
Lemma pct_test (p : string) :
  (Nat.ltb 4 (len p) && String.eqb (String.substring 0 4 p) "pct:")%bool
  = (Bytes.HasPrefix p "pct:" && Nat.ltb 4 (len p))%bool.
Proof.
  destruct p as [| a [| b [| c [| d [| e r]]]]];
    cbn -[Ascii.eqb]; rewrite ?andb_false_r; try reflexivity.
  rewrite !andb_true_r, (Ascii.eqb_sym a), (Ascii.eqb_sym b),
    (Ascii.eqb_sym c), (Ascii.eqb_sym d).
  destruct r;
    destruct (Ascii.eqb "p" a), (Ascii.eqb "c" b), (Ascii.eqb "t" c),
      (Ascii.eqb ":" d); reflexivity.
Qed.

Lemma StringToSize_cases (p : string) :
  StringToSize p =
  if String.eqb p "full" then Returns (zeroSize STFull)
  else if (Bytes.HasPrefix p "pct:" && Nat.ltb 4 (len p))%bool
  then Returns (mkSize STScalePercent (fst (ParseFloat (drop 4 p))) 0 0)
  else
    match p with
    | EmptyString => Panics SliceBoundsOutOfRange
    | String a r =>
        let bang := Ascii.eqb a "!" in
        match Split (if bang then r else p) comma with
        | v0 :: v1 :: _ =>
            Returns
              (mkSize
                 (if bang then STBestFit
                  else if String.eqb v0 "" then STScaleToHeight
                  else if String.eqb v1 "" then STScaleToWidth
                  else STExact)
                 zero (fst (Atoi v0)) (fst (Atoi v1)))
        | _ => Panics IndexOutOfRange
        end
    end.
Proof.
  unfold StringToSize. rewrite pct_test.
  destruct (String.eqb p "full"); [reflexivity |].
  destruct (Bytes.HasPrefix p "pct:" && Nat.ltb 4 (len p))%bool; [reflexivity |].
  destruct p as [| a r]; [reflexivity |].
  assert (Hs : slice (String a r) 0 1 = Returns (String a EmptyString)).
  { unfold slice. cbn. destruct r; reflexivity. }
  rewrite Hs. cbn [bind].
  assert (Hb : String.eqb (String a EmptyString) "!" = Ascii.eqb a "!").
  { cbn. apply andb_true_r. }
  rewrite Hb. cbv zeta.
  destruct (Ascii.eqb a "!").
  - unfold slice_from. cbn [len String.length Nat.leb drop bind].
    destruct (Split r comma) as [| v0 [| v1 vs]]; reflexivity.
  - cbn [bind].
    destruct (Split (String a r) comma) as [| v0 [| v1 vs]]; try reflexivity.
    cbn [index nth_error bind Type_ Percent W H].
    destruct (String.eqb v0 ""); [reflexivity |].
    destruct (String.eqb v1 ""); reflexivity.
Qed.

Lemma comma_not_full (p : string) :
  contains p comma = true -> String.eqb p "full" = false.
Proof.
  intros Hc. destruct (String.eqb_spec p "full") as [-> | _]; [| reflexivity].
  discriminate Hc.
Qed.

Lemma StringToSize_pct (f : string) :
  f <> "" ->
  StringToSize ("pct:" ++ f)
  = Returns (mkSize STScalePercent (fst (ParseFloat f)) 0 0).
Proof.
  intros Hf. rewrite StringToSize_cases.
  destruct f as [| c f]; [contradiction |]. reflexivity.
Qed.

(** C1. The parsing contract of [StringToSize], its rules tried in the
    order they are listed: the exact string "full" gives [STFull]; "pct:"
    followed by at least one byte gives [STScalePercent] with the float
    [ParseFloat] returns for those bytes; a leading "!" gives [STBestFit]
    and is removed before the rest is read as a "w,h" pair; for a "w,h"
    pair an empty w gives [STScaleToHeight], otherwise an empty h gives
    [STScaleToWidth], otherwise [STExact]; W and H are what [Atoi] returns
    for the two tokens.  The six examples of the design document follow. *)
Theorem StringToSize_contract :
  StringToSize "full" = Returns (zeroSize STFull)
  /\ (forall f : string,
        f <> "" ->
        StringToSize ("pct:" ++ f)
        = Returns (mkSize STScalePercent (fst (ParseFloat f)) 0 0))
  /\ (forall w h : string,
        contains w comma = false -> contains h comma = false ->
        StringToSize ("!" ++ w ++ "," ++ h)
        = Returns (mkSize STBestFit zero (fst (Atoi w)) (fst (Atoi h))))
  /\ (forall w h : string,
        contains w comma = false -> contains h comma = false ->
        Bytes.HasPrefix w "pct:" = false -> Bytes.HasPrefix w "!" = false ->
        StringToSize (w ++ "," ++ h)
        = Returns (mkSize (if String.eqb w "" then STScaleToHeight
                           else if String.eqb h "" then STScaleToWidth
                           else STExact)
                          zero (fst (Atoi w)) (fst (Atoi h))))
  /\ StringToSize "pct:50" = Returns (mkSize STScalePercent 50%float 0 0)
  /\ StringToSize "150," = Returns (mkSize STScaleToWidth zero 150 0)
  /\ StringToSize ",150" = Returns (mkSize STScaleToHeight zero 0 150)
  /\ StringToSize "150,75" = Returns (mkSize STExact zero 150 75)
  /\ StringToSize "!150,75" = Returns (mkSize STBestFit zero 150 75).
Proof.
  split; [reflexivity |].
  split.
  { exact StringToSize_pct. }
  split.
  { intros w h Hw Hh. rewrite StringToSize_cases.
    change ("!" ++ w ++ "," ++ h) with (String "!" (w ++ String comma h)).
    cbn -[Split Atoi].
    rewrite (Split_at_first _ _ _ Hw), (Split_without _ _ Hh). reflexivity. }
  split.
  { intros w h Hw Hh Hpct Hbang. rewrite StringToSize_cases.
    change (w ++ "," ++ h) with (w ++ String comma h).
    rewrite comma_not_full
      by (rewrite contains_app; cbn [contains]; rewrite Ascii.eqb_refl;
          apply orb_true_r).
    rewrite HasPrefix_before by reflexivity. rewrite Hpct. cbn [andb].
    destruct w as [| a w].
    - cbn -[Atoi Split].
      change (String comma h) with ("" ++ String comma h).
      rewrite (Split_at_first "" h comma eq_refl), (Split_without _ _ Hh).
      reflexivity.
    - cbn [append].
      assert (Ha : Ascii.eqb a "!" = false).
      { cbn [Bytes.HasPrefix] in Hbang. rewrite Ascii.eqb_sym.
        destruct (Ascii.eqb "!" a);
          [destruct w; discriminate Hbang | reflexivity]. }
      rewrite Ha. cbv zeta.
      change (String a (w ++ String comma h))
        with (String a w ++ String comma h).
      rewrite (Split_at_first _ _ _ Hw), (Split_without _ _ Hh).
      reflexivity. }
  repeat split; vm_compute; reflexivity.
Qed.

Lemma StringToSize_contract_witness :
  StringToSize "pct:12.5" = Returns (mkSize STScalePercent 12.5%float 0 0)
  /\ StringToSize "!640,480" = Returns (mkSize STBestFit zero 640 480)
  /\ StringToSize "640," = Returns (mkSize STScaleToWidth zero 640 0).
Proof.
  destruct StringToSize_contract as (_ & Hpct & Hbang & Hpair & _).
  split; [| split].
  - exact (Hpct "12.5" ltac:(discriminate)).
  - exact (Hbang "640" "480" eq_refl eq_refl).
  - exact (Hpair "640" "" eq_refl eq_refl eq_refl eq_refl).
Defined.

(** C3. [StringToSize] is not total: an input without a comma (other
    than "full" and the "pct:" form) makes it index past the end of the
    pieces, and the empty input makes it slice past the end of the
    string; both are run-time panics. *)
Theorem StringToSize_panics :
  StringToSize "150" = Panics IndexOutOfRange
  /\ StringToSize "" = Panics SliceBoundsOutOfRange
  /\ StringToSize "!" = Panics IndexOutOfRange
  /\ StringToSize "pct:" = Panics IndexOutOfRange.
Proof. repeat split; vm_compute; reflexivity. Qed.

(** Whenever the input has no comma, is not "full" and is not of the
    "pct:" form, the call panics. *)
Lemma comma_free_panics (p : string) :
  contains p comma = false ->
  p <> "full" ->
  (Bytes.HasPrefix p "pct:" && Nat.ltb 4 (len p))%bool = false ->
  exists e, StringToSize p = Panics e.
Proof.
  intros Hc Hfull Hpct. rewrite StringToSize_cases, Hpct.
  destruct (String.eqb_spec p "full") as [-> | _]; [contradiction |].
  destruct p as [| a r]; [eexists; reflexivity |].
  cbv zeta. destruct (Ascii.eqb a "!").
  - cbn in Hc. apply orb_false_iff in Hc as [_ Hr].
    rewrite (Split_without _ _ Hr). eexists; reflexivity.
  - rewrite (Split_without _ _ Hc). eexists; reflexivity.
Qed.


(** *** Numbers that do not parse *)

Lemma Atoi_syntax_zero (s : string) :
  snd (Atoi s) = Some ErrSyntax -> fst (Atoi s) = 0.
Proof.
  unfold Atoi, ParseInt. destruct s as [| c0 s']; [reflexivity |].
  destruct (if Ascii.eqb c0 "+" then (false, s')
            else if Ascii.eqb c0 "-" then (true, s')
            else (false, String c0 s')) as [neg s1].
  destruct (ParseUint s1) as [un [[|] |]]; cbn [fst snd]; try reflexivity.
  - destruct (negb neg && (2 ^ 63 <=? un))%bool; [discriminate |].
    destruct (neg && (2 ^ 63 <? un))%bool; discriminate.
  - destruct (negb neg && (2 ^ 63 <=? un))%bool; [discriminate |].
    destruct (neg && (2 ^ 63 <? un))%bool; discriminate.
Qed.

Lemma ParseFloat_syntax_zero (s : string) :
  snd (ParseFloat s) = Some ErrSyntax -> fst (ParseFloat s) = zero.
Proof.
  unfold ParseFloat. destruct (special s); [discriminate |].
  destruct (readFloat s) as [[[neg m] e] |]; [| reflexivity].
  destruct m as [| m | m]; cbn [fst snd]; try discriminate.
  destruct (decimal_to_binary64 neg m e); discriminate.
Qed.

(** The only errors of the two parsers are a syntax error, which leaves
    the value at zero, and a range error. *)
Lemma Atoi_error_kinds (s : string) :
  snd (Atoi s) = None \/ snd (Atoi s) = Some ErrSyntax
  \/ snd (Atoi s) = Some ErrRange.
Proof. destruct (snd (Atoi s)) as [[|] |]; auto. Qed.

(** C9, as the code has it. When the text after "pct:" is not a float
    by syntax, or a non-empty width or height token is not an integer by
    syntax, the parse error is dropped, the field keeps its zero value
    and the size is not [Valid].  (A well-formed number that is out of
    range is another matter: the parsers return the nearest extreme.) *)
Theorem syntax_error_is_invalid :
  (forall f : string,
     f <> "" -> snd (ParseFloat f) = Some ErrSyntax ->
     exists s, StringToSize ("pct:" ++ f) = Returns s
               /\ Percent s = zero /\ Valid s = false)
  /\ (forall (p v0 v1 : string) (vs : list string),
        Bytes.HasPrefix p "pct:" = false ->
        size_tokens p = v0 :: v1 :: vs ->
        (v0 <> "" -> snd (Atoi v0) = Some ErrSyntax ->
         exists s, StringToSize p = Returns s /\ W s = 0 /\ Valid s = false)
        /\ (v1 <> "" -> snd (Atoi v1) = Some ErrSyntax ->
            exists s, StringToSize p = Returns s /\ H s = 0 /\ Valid s = false)).
Proof.
  split.
  - intros f Hf Herr.
    rewrite (StringToSize_pct f Hf), (ParseFloat_syntax_zero f Herr).
    eexists; repeat split.
  - intros p v0 v1 vs Hpct Htok.
    assert (Hcases := StringToSize_cases p).
    rewrite Hpct in Hcases. cbn [andb] in Hcases.
    destruct (String.eqb_spec p "full") as [-> | _]; [discriminate Htok |].
    destruct p as [| a r]; [discriminate Htok |].
    cbv zeta in Hcases. cbn [size_tokens] in Htok.
    rewrite Htok in Hcases. rewrite Hcases. clear Hcases.
    split; intros Hne Herr; rewrite (Atoi_syntax_zero _ Herr);
      eexists; (split; [reflexivity |]); (split; [reflexivity |]);
      unfold Valid; cbn [Type_ W H Percent].
    + destruct (Ascii.eqb a "!"); [reflexivity |].
      destruct (String.eqb_spec v0 "") as [-> | _]; [contradiction |].
      destruct (String.eqb v1 ""); reflexivity.
    + destruct (Ascii.eqb a "!");
        [cbn; apply andb_false_r |].
      destruct (String.eqb v0 ""); [reflexivity |].
      destruct (String.eqb_spec v1 "") as [-> | _]; [contradiction |].
      cbn; apply andb_false_r.
Qed.

Lemma syntax_error_is_invalid_witness :
  (exists s, StringToSize "pct:half" = Returns s
             /\ Percent s = zero /\ Valid s = false)
  /\ (exists s, StringToSize "wide,75" = Returns s /\ W s = 0 /\ Valid s = false)
  /\ (exists s, StringToSize "!150,7x5" = Returns s /\ H s = 0 /\ Valid s = false).
Proof.
  destruct syntax_error_is_invalid as [Hpct Htok].
  split; [| split].
  - apply (Hpct "half"); [discriminate | reflexivity].
  - apply (Htok "wide,75" "wide" "75" [] eq_refl eq_refl);
      [discriminate | reflexivity].
  - apply (Htok "!150,7x5" "150" "7x5" [] eq_refl eq_refl);
      [discriminate | reflexivity].
Defined.

(** C9 as stated fails: a token of digits too large for an [int] does
    not parse ([Atoi] reports a range error), yet the field is set to the
    largest [int] and the size is [Valid]; likewise "pct:1e999" sets
    [Percent] to +Inf. *)
Lemma out_of_range_number_is_valid :
  snd (Atoi "99999999999999999999") = Some ErrRange
  /\ StringToSize "99999999999999999999,"
     = Returns (mkSize STScaleToWidth zero 9223372036854775807 0)
  /\ Valid (mkSize STScaleToWidth zero 9223372036854775807 0) = true
  /\ snd (ParseFloat "1e999") = Some ErrRange
  /\ StringToSize "pct:1e999" = Returns (mkSize STScalePercent infinity 0 0)
  /\ Valid (mkSize STScalePercent infinity 0 0) = true.
Proof. repeat split; vm_compute; reflexivity. Qed.


(** ** The handler *)

(** *** Traces *)

Lemma committed_app (tr1 tr2 : list Event) :
  committed (tr1 ++ tr2)
  = match committed tr1 with
    | Some code => Some code
    | None => committed tr2
    end.
Proof.
  induction tr1 as [| e tr1 IH]; [reflexivity |].
  destruct e as [op | | |]; cbn; try exact IH.
  destruct (commits op); [reflexivity | exact IH].
Qed.


Lemma no_errors_in_ops (ops : list WriterOp) : errors_of (map Resp ops) = [].
Proof. induction ops as [| op ops IH]; [reflexivity | exact IH]. Qed.

Lemma errors_of_app (tr1 tr2 : list Event) :
  errors_of (tr1 ++ tr2) = (errors_of tr1 ++ errors_of tr2)%list.
Proof.
  induction tr1 as [| e tr1 IH]; [reflexivity |].
  destruct e as [op | msg | c [err |] | e]; cbn; rewrite ?IH; reflexivity.
Qed.

Lemma no_decode_in_ops (ops : list WriterOp) :
  existsb is_decode (map Resp ops) = false.
Proof. induction ops as [| op ops IH]; [reflexivity | exact IH]. Qed.

(** A committed status is the status of the response. *)
Lemma status_of_committed (tr : list Event) (code : Z) :
  committed tr = Some code -> status_of tr = Some code.
Proof. unfold status_of. intros ->. reflexivity. Qed.

(** [Route], by the case [dispatch] names. *)
Lemma Route_dispatch (ih : IIIFHandler) (env : Env) (req : Request) :
  Route ih env req =
  match dispatch ih env req with
  | NoMatch => [Resp http_NotFound]
  | BadSubmatch e => [Panic e]
  | BaseOnly => [Resp (http_Redirect (RequestURI req ++ "/info.json") 303)]
  | InfoRequest id fp => Info ih env req id fp
  | CommandRequest id fp =>
      match NewImageResource env id fp with
      | inr err =>
          Called (CallNewImageResource id fp) (Some err)
            :: newImageResError env err
      | inl res =>
          Called (CallNewImageResource id fp) None ::
          (if URL_Valid env (NewURL env (RequestURI req))
           then Command ih env req (NewURL env (RequestURI req)) res
           else [Resp (http_Error "Invalid IIIF request" 400)])
      end
  end.
Proof.
  unfold Route, dispatch.
  destruct (FindStringSubmatch (BaseRegex ih) (RequestURI req)) as [parts |];
    [| reflexivity].
  destruct (index parts 1) as [id | e]; [| reflexivity].
  destruct (MatchString (BaseOnlyRegex ih) (RequestURI req)); [reflexivity |].
  destruct (MatchString (InfoPathRegex ih) (RequestURI req)); reflexivity.
Qed.

Lemma Route_info (ih : IIIFHandler) (env : Env) (req : Request)
    (id : ID) (fp : string) :
  dispatch ih env req = InfoRequest id fp ->
  Route ih env req = Info ih env req id fp.
Proof. intros Hd. rewrite Route_dispatch, Hd. reflexivity. Qed.

Example dispatch_examples :
  dispatch demo_handler (world fine) (get "/iiif/abc" []) = BaseOnly
  /\ dispatch demo_handler (world fine) (info_request [])
     = InfoRequest "abc" abc_path
  /\ dispatch demo_handler (world fine) command_request
     = CommandRequest "abc" abc_path
  /\ dispatch demo_handler (world fine) (get "/images/abc" []) = NoMatch
  /\ dispatch demo_handler (world fine) (get "/iiif/abc/infoXjson" [])
     = InfoRequest "abc" abc_path.
Proof. repeat split. Qed.

Lemma newImageResError_status (env : Env) (err : error) :
  committed (newImageResError env err)
  = Some (match err with ErrImageDoesNotExist => 404 | _ => 500 end).
Proof. destruct err; reflexivity. Qed.

(** *** The three patterns *)

Lemma strip_prefix_app (pre r : string) :
  Regex.strip_prefix pre (pre ++ r) = Some r.
Proof.
  induction pre as [| a pre IH]; cbn; [reflexivity |].
  rewrite Ascii.eqb_refl. exact IH.
Qed.

Lemma span_segment_whole (seg : string) :
  contains seg "/" = false -> Regex.span_segment seg = (seg, "").
Proof.
  induction seg as [| c seg IH]; cbn; [reflexivity |].
  intros Hc. apply orb_false_iff in Hc as [Hc Hseg].
  rewrite Hc, (IH Hseg). reflexivity.
Qed.

Lemma append_assoc (a b c : string) : (a ++ b) ++ c = a ++ b ++ c.
Proof.
  induction a as [| x a IH]; cbn; [reflexivity | rewrite IH; reflexivity].
Qed.

Lemma match_ident_segment (path seg : string) :
  seg <> "" -> contains seg "/" = false ->
  Regex.match_ident path (path ++ "/" ++ seg) = Some (seg, "").
Proof.
  intros Hne Hseg. unfold Regex.match_ident.
  rewrite <- append_assoc, strip_prefix_app, (span_segment_whole _ Hseg).
  destruct seg; [contradiction | reflexivity].
Qed.

(** The pattern [NewIIIFHandler] gives [BaseRegex] has one group: the
    submatch [Route] indexes is always there. *)
Lemma NewIIIFHandler_submatch (u : url_URL) (widths : list Z) (tp : string)
    (env : Env) (req : Request) (e : RuntimeError) :
  dispatch (NewIIIFHandler u widths tp) env req <> BadSubmatch e.
Proof.
  unfold dispatch.
  cbn [NewIIIFHandler BaseRegex FindStringSubmatch Regex.base].
  destruct (Regex.match_ident (Path u) (RequestURI req)) as [[seg rest] |];
    [| discriminate].
  cbn [index nth_error].
  destruct (MatchString _ _); [discriminate |].
  destruct (MatchString _ _); discriminate.
Qed.

(** C10. A request for the base URL plus one identifier segment and
    nothing more is answered by the 303 redirect to its info.json path
    and by nothing else: no file is opened and nothing is looked up, so
    the answer is 303 also when the identifier names no image. *)
Theorem base_only_redirects (u : url_URL) (widths : list Z) (tp : string)
    (env : Env) (req : Request) (seg : string) :
  Regex.regexp_literal (Path u) = true ->
  seg <> "" -> contains seg "/" = false ->
  RequestURI req = Path u ++ "/" ++ seg ->
  let tr := Route (NewIIIFHandler u widths tp) env req in
  tr = [Resp (http_Redirect (Path u ++ "/" ++ seg ++ "/info.json") 303)]
  /\ status_of tr = Some 303
  /\ existsb is_open tr = false
  /\ ((forall id fp, NewImageResource env id fp = inr ErrImageDoesNotExist) ->
      status_of tr = Some 303).
Proof.
  intros _ Hne Hseg Huri tr.
  assert (Htr : tr = [Resp (http_Redirect (Path u ++ "/" ++ seg ++ "/info.json") 303)]).
  { subst tr. unfold Route. rewrite Huri.
    cbn [NewIIIFHandler BaseRegex BaseOnlyRegex FindStringSubmatch MatchString
           Regex.base Regex.base_only Regex.is_some].
    rewrite (match_ident_segment _ _ Hne Hseg).
    cbn [index nth_error].
    rewrite !append_assoc. reflexivity. }
  rewrite Htr. repeat split.
Qed.

Lemma base_only_redirects_witness :
  Route demo_handler no_image (get "/iiif/abc" [])
  = [Resp (http_Redirect "/iiif/abc/info.json" 303)]
  /\ status_of (Route demo_handler no_image (get "/iiif/abc" [])) = Some 303
  /\ existsb is_open (Route demo_handler no_image (get "/iiif/abc" [])) = false.
Proof.
  destruct (base_only_redirects demo_base [256; 512] "/var/local/images"
              no_image (get "/iiif/abc" []) "abc")
    as (Htr & Hst & Hopen & Hmissing);
    [reflexivity | discriminate | reflexivity | reflexivity |].
  split; [exact Htr |]. split; [| exact Hopen].
  apply Hmissing. intros id fp. reflexivity.
Defined.

(** *** Status codes *)

Lemma Command_unsupported (ih : IIIFHandler) (env : Env) (req : Request)
    (u : iiif_URL) (res : ImageResource) (sent : list WriterOp) :
  sendHeaders env req (res_FilePath res) = (sent, None) ->
  Supported env (FeatureSet_ ih) u = false ->
  Command ih env req u res
  = Called (CallSendHeaders (res_FilePath res)) None
      :: (map Resp sent ++ [Resp (http_Error "Feature not supported" 501)])%list.
Proof. intros Hs Hsup. unfold Command. rewrite Hs, Hsup. reflexivity. Qed.

Lemma Command_apply_fails (ih : IIIFHandler) (env : Env) (req : Request)
    (u : iiif_URL) (res : ImageResource) (sent : list WriterOp) (e : error) :
  sendHeaders env req (res_FilePath res) = (sent, None) ->
  Supported env (FeatureSet_ ih) u = true ->
  Apply env res u = inr e ->
  Command ih env req u res
  = Called (CallSendHeaders (res_FilePath res)) None
      :: (map Resp sent
          ++ [Called (CallApply res u) (Some e);
              Resp (http_Error (Error env e) 500)])%list.
Proof.
  intros Hs Hsup Ha. unfold Command. rewrite Hs, Hsup, Ha. reflexivity.
Qed.

Lemma Command_encode_fails (ih : IIIFHandler) (env : Env) (req : Request)
    (u : iiif_URL) (res : ImageResource) (sent encoded : list WriterOp)
    (img : Image) (e : error) :
  sendHeaders env req (res_FilePath res) = (sent, None) ->
  Supported env (FeatureSet_ ih) u = true ->
  Apply env res u = inl img ->
  EncodeImage env img (url_Format u) = (encoded, Some e) ->
  Command ih env req u res
  = Called (CallSendHeaders (res_FilePath res)) None
      :: (map Resp sent
          ++ Called (CallApply res u) None
          :: Resp (HeaderSet "Content-Type"
                     (TypeByExtension env ("." ++ url_Format u)))
          :: Called (CallEncodeImage img (url_Format u)) (Some e)
          :: map Resp encoded
          ++ [Resp (http_Error "Unable to encode" 500);
              log_Printf ("Unable to encode to " ++ url_Format u ++ ": "
                            ++ Error env e)])%list.
Proof.
  intros Hs Hsup Ha He. unfold Command. rewrite Hs, Hsup, Ha, He. reflexivity.
Qed.

Lemma Command_sendHeaders_fails (ih : IIIFHandler) (env : Env) (req : Request)
    (u : iiif_URL) (res : ImageResource) (sent : list WriterOp) (e : error) :
  sendHeaders env req (res_FilePath res) = (sent, Some e) ->
  Command ih env req u res
  = Called (CallSendHeaders (res_FilePath res)) (Some e) :: map Resp sent.
Proof.
  intros Hs. unfold Command. rewrite Hs. rewrite app_nil_r. reflexivity.
Qed.

(** *** The descriptor request, by cases *)

Lemma Info_cases (ih : IIIFHandler) (env : Env) (req : Request)
    (id : ID) (fp : string) :
  Info ih env req id fp =
  match ReadFile env (fp ++ "-info.json") with
  | inl content =>
      match Bytes.Replace1 (bytes_copy env) content "%ID%"
              (URL_String env (Base ih) ++ "/" ++ ID_String env id) with
      | Some body =>
          Called (CallReadFile (fp ++ "-info.json")) None
            :: send_descriptor req body
      | None =>
          Called (CallReadFile (fp ++ "-info.json")) None
            :: generated ih env req id fp
      end
  | inr err =>
      Called (CallReadFile (fp ++ "-info.json")) (Some err)
        :: generated ih env req id fp
  end.
Proof.
  unfold Info, loadInfoJSONOverride, buildInfoJSON, generated, descriptor.
  destruct (ReadFile env (fp ++ "-info.json")) as [content | rerr].
  - destruct (Bytes.Replace1 _ content "%ID%" _) as [body |]; [reflexivity |].
    destruct (NewImageResource env id fp) as [res | oerr]; [| reflexivity].
    destruct (json_Marshal env _) as [js | merr]; reflexivity.
  - destruct (NewImageResource env id fp) as [res | oerr]; [| reflexivity].
    destruct (json_Marshal env _) as [js | merr]; reflexivity.
Qed.

(** The errors of a generated descriptor come from opening the image or
    from marshalling, and end the request with 404 or 500. *)
Lemma generated_errors (ih : IIIFHandler) (env : Env) (req : Request)
    (id : ID) (fp : string) (c : Call) (e : error) :
  In (c, e) (errors_of (generated ih env req id fp)) ->
  (c = CallNewImageResource id fp
   /\ NewImageResource env id fp = inr e
   /\ committed (generated ih env req id fp)
      = Some (match e with ErrImageDoesNotExist => 404 | _ => 500 end))
  \/ ((exists info, c = CallMarshal info)
      /\ committed (generated ih env req id fp) = Some 500).
Proof.
  unfold generated.
  destruct (NewImageResource env id fp) as [res | oerr].
  - destruct (json_Marshal env (descriptor ih env res)) as [js | merr];
      cbn; [contradiction |].
    intros [Hin | []]. injection Hin as <- <-. right. eauto.
  - intros Hin. left. cbn [errors_of] in Hin.
    assert (Hnone : errors_of (newImageResError env oerr) = [])
      by (destruct oerr; reflexivity).
    rewrite Hnone in Hin. destruct Hin as [Hin | []].
    injection Hin as <- <-. cbn [committed].
    rewrite newImageResError_status. auto.
Qed.

(** The errors met while running a command: [sendHeaders] failing ends
    the request with what it sent; [res.Apply] or the encoder failing
    ends it with 500 when the collaborators left the status alone. *)
Lemma Command_errors (ih : IIIFHandler) (env : Env) (req : Request)
    (u : iiif_URL) (res : ImageResource) (c : Call) (e : error) :
  In (c, e) (errors_of (Command ih env req u res)) ->
  c = CallSendHeaders (res_FilePath res)
  \/ (((exists r v, c = CallApply r v) \/ (exists img fmt, c = CallEncodeImage img fmt))
      /\ (leaves_status env -> committed (Command ih env req u res) = Some 500)).
Proof.
  unfold Command.
  destruct (sendHeaders env req (res_FilePath res)) as [sent [serr |]] eqn:Hs;
    cbn [errors_of]; rewrite errors_of_app, no_errors_in_ops; cbn [app].
  - intros [Hin | []]. injection Hin as <- _. left. reflexivity.
  - destruct (negb (Supported env (FeatureSet_ ih) u)); [intros [] |].
    destruct (Apply env res u) as [img | aerr].
    + destruct (EncodeImage env img (url_Format u)) as [enc [eerr |]] eqn:He;
        cbn [errors_of]; rewrite errors_of_app, no_errors_in_ops;
        cbn [app errors_of]; [| intros []].
      intros [Hin | []]. injection Hin as <- _. right. split; [eauto |].
      intros [Hsend Henc]. cbn [committed].
      rewrite committed_app, (Hsend _ _ _ Hs). cbn [committed commits].
      rewrite committed_app, (Henc _ _ _ _ He). reflexivity.
    + cbn. intros [Hin | []]. injection Hin as <- _. right. split; [eauto |].
      intros [Hsend _]. rewrite committed_app, (Hsend _ _ _ Hs). reflexivity.
Qed.

(** C4, as the code has it. Whenever [NewImageResource] reports
    [ErrImageDoesNotExist] the answer is 404.  On the command path, once
    the image is open: a path that fails the grammar check gets 400.  A
    valid command gets 501 when its features are not supported, 500 when
    [res.Apply] fails and 500 when the encoder fails, all three provided
    [sendHeaders] reported no error and sent no status of its own, and
    the last one provided also that the encoder had written nothing to
    the response before it failed. *)
Theorem status_mapping (ih : IIIFHandler) (env : Env) (req : Request) :
  let tr := Route ih env req in
  let u := NewURL env (RequestURI req) in
  (forall id fp,
      In (CallNewImageResource id fp, ErrImageDoesNotExist) (errors_of tr) ->
      status_of tr = Some 404)
  /\ (forall id fp res,
        dispatch ih env req = CommandRequest id fp ->
        NewImageResource env id fp = inl res ->
        (URL_Valid env u = false -> status_of tr = Some 400)
        /\ (forall sent,
              URL_Valid env u = true ->
              sendHeaders env req (res_FilePath res) = (sent, None) ->
              committed (map Resp sent) = None ->
              (Supported env (FeatureSet_ ih) u = false ->
               status_of tr = Some 501)
              /\ (forall e,
                    Supported env (FeatureSet_ ih) u = true ->
                    Apply env res u = inr e -> status_of tr = Some 500)
              /\ (forall img encoded e,
                    Supported env (FeatureSet_ ih) u = true ->
                    Apply env res u = inl img ->
                    EncodeImage env img (url_Format u) = (encoded, Some e) ->
                    committed (map Resp encoded) = None ->
                    status_of tr = Some 500))).

Proof.
  intros tr u. subst tr u. rewrite Route_dispatch. split.
  - intros id fp Hin.
    destruct (dispatch ih env req) as [| e | | id' fp' | id' fp'];
      try (cbn in Hin; contradiction).
    + (* info.json *)
      rewrite Info_cases in *.
      assert (Hgen : In (CallNewImageResource id fp, ErrImageDoesNotExist)
                        (errors_of (generated ih env req id' fp')) ->
                     committed (generated ih env req id' fp') = Some 404).
      { intros H. apply generated_errors in H as [(_ & _ & H) | ([info Hc] & _)];
          [exact H | discriminate Hc]. }
      destruct (ReadFile env (fp' ++ "-info.json")) as [content | rerr].
      * destruct (Bytes.Replace1 _ content "%ID%" _) as [body |];
          [cbn in Hin; contradiction |].
        apply status_of_committed. cbn [committed]. apply Hgen. exact Hin.
      * apply status_of_committed. cbn [committed]. apply Hgen.
        cbn [errors_of] in Hin. destruct Hin as [Hin | Hin];
          [discriminate Hin | exact Hin].
    + (* a command *)
      destruct (NewImageResource env id' fp') as [res | oerr].
      * exfalso. cbn [errors_of] in Hin.
        destruct (URL_Valid env _); [| cbn in Hin; contradiction].
        apply Command_errors in Hin as [Hc | [[(r & v & Hc) | (i & f & Hc)] _]];
          discriminate Hc.
      * cbn [errors_of] in Hin.
        assert (Hnone : errors_of (newImageResError env oerr) = [])
          by (destruct oerr; reflexivity).
        rewrite Hnone in Hin. destruct Hin as [Hin | []].
        injection Hin as _ _ ->. reflexivity.
  - intros id fp res Hd Hopen. rewrite Hd, Hopen. split.
    + intros Hv. rewrite Hv. reflexivity.
    + intros sent Hv Hs Hsent. rewrite Hv.
      split; [| split].
      * intros Hsup. rewrite (Command_unsupported _ _ _ _ _ _ Hs Hsup).
        apply status_of_committed. cbn [committed].
        rewrite committed_app, Hsent. reflexivity.
      * intros e Hsup Ha. rewrite (Command_apply_fails _ _ _ _ _ _ _ Hs Hsup Ha).
        apply status_of_committed. cbn [committed].
        rewrite committed_app, Hsent. reflexivity.
      * intros img enc e Hsup Ha He Henc.
        rewrite (Command_encode_fails _ _ _ _ _ _ _ _ _ Hs Hsup Ha He).
        apply status_of_committed. cbn [committed].
        rewrite committed_app, Hsent. cbn [committed commits].
        rewrite committed_app, Henc. reflexivity.
Qed.

Lemma status_mapping_witness :
  status_of (Route demo_handler no_image command_request) = Some 404
  /\ status_of (Route demo_handler no_image (info_request [])) = Some 404
  /\ status_of (Route demo_handler bad_syntax command_request) = Some 400
  /\ status_of (Route demo_handler unsupported command_request) = Some 501
  /\ status_of (Route demo_handler apply_fails command_request) = Some 500
  /\ status_of (Route demo_handler encode_fails command_request) = Some 500.
Proof.
  split; [| split; [| split; [| split; [| split]]]].
  - apply (proj1 (status_mapping demo_handler no_image command_request)
             "abc" abc_path).
    left. reflexivity.
  - apply (proj1 (status_mapping demo_handler no_image (info_request []))
             "abc" abc_path).
    right. left. reflexivity.
  - exact (proj1 (proj2 (status_mapping demo_handler bad_syntax command_request)
                    "abc" abc_path demo_image eq_refl eq_refl)
             eq_refl).
  - exact (proj1 (proj2 (proj2 (status_mapping demo_handler unsupported
                                  command_request)
                           "abc" abc_path demo_image eq_refl eq_refl)
                    (fst (headers fine)) eq_refl eq_refl eq_refl)
             eq_refl).
  - exact (proj1 (proj2 (proj2 (proj2 (status_mapping demo_handler apply_fails
                                         command_request)
                                  "abc" abc_path demo_image eq_refl eq_refl)
                           (fst (headers fine)) eq_refl eq_refl eq_refl))
             (errorString "unable to decode") eq_refl eq_refl).
  - exact (proj2 (proj2 (proj2 (proj2 (status_mapping demo_handler encode_fails
                                         command_request)
                                  "abc" abc_path demo_image eq_refl eq_refl)
                           (fst (headers fine)) eq_refl eq_refl eq_refl))
             "pixels" [] (errorString "unsupported format")
             eq_refl eq_refl eq_refl eq_refl).
Defined.

(** C4 as stated fails in three places. A command whose features are
    not supported is answered 304, not 501, when [sendHeaders] reports
    an error ([Command] returns before it looks at the feature set); a
    failure of the encoder after it wrote part of the image leaves the
    status at 200, the 500 coming too late; and so does a failure of the
    encoder after a [sendHeaders] that reported no error but had sent
    the status line. *)
Lemma status_mapping_counterexample :
  (dispatch demo_handler not_modified command_request
   = CommandRequest "abc" abc_path
   /\ URL_Valid not_modified (NewURL not_modified (RequestURI command_request))
      = true
   /\ Supported not_modified (FeatureSet_ demo_handler)
        (NewURL not_modified (RequestURI command_request)) = false
   /\ status_of (Route demo_handler not_modified command_request) = Some 304)
  /\ (EncodeImage encoder_breaks_midway "pixels" "jpg"
      = ([Write "jpeg by"], Some (errorString "broken pipe"))
      /\ In (CallEncodeImage "pixels" "jpg", errorString "broken pipe")
            (errors_of (Route demo_handler encoder_breaks_midway command_request))
      /\ status_of (Route demo_handler encoder_breaks_midway command_request)
         = Some 200)
  /\ (sendHeaders headers_flushed command_request abc_path
      = ([WriteHeader 200], None)
      /\ EncodeImage headers_flushed "pixels" "jpg"
         = ([], Some (errorString "unsupported format"))
      /\ errors_of (Route demo_handler headers_flushed command_request)
         = [(CallEncodeImage "pixels" "jpg", errorString "unsupported format")]
      /\ status_of (Route demo_handler headers_flushed command_request)
         = Some 200).
Proof.
  split; [repeat split |].
  split; [| repeat split].
  split; [reflexivity |]. split; [| reflexivity].
  vm_compute. left. reflexivity.
Qed.

(** *** What comes first *)

(** C5, as the code has it. On the command path the image resource is
    opened first; the grammar check and the feature check come after it
    (the feature check after [sendHeaders] too).  Their 400 and 501 are
    reported before [res.Apply] and the encoder are called: a rejected
    request does no decoding, but its image has been opened. *)
Theorem rejection_follows_open (ih : IIIFHandler) (env : Env) (req : Request)
    (id : ID) (fp : string) (res : ImageResource) :
  dispatch ih env req = CommandRequest id fp ->
  NewImageResource env id fp = inl res ->
  (URL_Valid env (NewURL env (RequestURI req)) = false ->
   Route ih env req
   = [Called (CallNewImageResource id fp) None;
      Resp (http_Error "Invalid IIIF request" 400)]
   /\ existsb is_decode (Route ih env req) = false
   /\ precedes is_open is_rejection (Route ih env req) = true)
  /\ (forall sent,
        URL_Valid env (NewURL env (RequestURI req)) = true ->
        sendHeaders env req (res_FilePath res) = (sent, None) ->
        Supported env (FeatureSet_ ih) (NewURL env (RequestURI req)) = false ->
        Route ih env req
        = Called (CallNewImageResource id fp) None
            :: Called (CallSendHeaders (res_FilePath res)) None
            :: (map Resp sent
                ++ [Resp (http_Error "Feature not supported" 501)])%list
        /\ existsb is_decode (Route ih env req) = false
        /\ precedes is_open is_rejection (Route ih env req) = true).
Proof.
  intros Hd Hopen. rewrite Route_dispatch, Hd, Hopen. split.
  - intros Hv. rewrite Hv. repeat split.
  - intros sent Hv Hs Hsup.
    rewrite Hv, (Command_unsupported _ _ _ _ _ _ Hs Hsup).
    split; [reflexivity |]. split.
    + cbn [existsb is_decode orb]. rewrite existsb_app, no_decode_in_ops.
      reflexivity.
    + cbn [precedes is_open andb existsb is_rejection orb].
      rewrite existsb_app. cbn. rewrite orb_true_r. reflexivity.
Qed.

Lemma rejection_follows_open_witness :
  (Route demo_handler bad_syntax command_request
   = [Called (CallNewImageResource "abc" abc_path) None;
      Resp (http_Error "Invalid IIIF request" 400)]
   /\ existsb is_decode (Route demo_handler bad_syntax command_request) = false
   /\ precedes is_open is_rejection
        (Route demo_handler bad_syntax command_request) = true)
  /\ existsb is_decode (Route demo_handler unsupported command_request) = false.
Proof.
  split.
  - exact (proj1 (rejection_follows_open demo_handler bad_syntax command_request
                    "abc" abc_path demo_image eq_refl eq_refl)
             eq_refl).
  - exact (proj1 (proj2 (proj2 (rejection_follows_open demo_handler unsupported
                                  command_request
                                  "abc" abc_path demo_image eq_refl eq_refl)
                           (fst (headers fine)) eq_refl eq_refl eq_refl))).
Defined.

(** C5 as stated fails: the request below has a path that fails the
    grammar check, and the next one asks for an unsupported feature; in
    both the image resource is opened before the rejection is reported. *)
Lemma resource_opened_before_rejection :
  Route demo_handler bad_syntax command_request
  = [Called (CallNewImageResource "abc" abc_path) None;
     Resp (http_Error "Invalid IIIF request" 400)]
  /\ precedes is_open is_rejection
       (Route demo_handler bad_syntax command_request) = true
  /\ Route demo_handler unsupported command_request
     = [Called (CallNewImageResource "abc" abc_path) None;
        Called (CallSendHeaders abc_path) None;
        Resp (HeaderSet "Last-Modified" "Mon, 02 Jan 2006 15:04:05 GMT");
        Resp (http_Error "Feature not supported" 501)]
  /\ precedes is_open is_rejection
       (Route demo_handler unsupported command_request) = true.
Proof. repeat split. Qed.

(** *** Replacing the placeholder *)

Lemma HasPrefix_app (pre r : string) : Bytes.HasPrefix (pre ++ r) pre = true.
Proof.
  induction pre as [| a pre IH]; [destruct r; reflexivity |].
  cbn. rewrite Ascii.eqb_refl. exact IH.
Qed.

Lemma HasPrefix_split (s pre : string) :
  Bytes.HasPrefix s pre = true -> exists r, s = pre ++ r.
Proof.
  revert s. induction pre as [| a pre IH]; intros s H.
  - exists s. reflexivity.
  - destruct s as [| b s]; [discriminate H |].
    cbn in H. apply andb_true_iff in H as [Hab Hs].
    apply Ascii.eqb_eq in Hab as ->.
    destruct (IH s Hs) as [r ->]. exists r. reflexivity.
Qed.

Lemma take_app (pre r : string) : Bytes.take (String.length pre) (pre ++ r) = pre.
Proof.
  unfold Bytes.take. induction pre as [| a pre IH]; cbn.
  - destruct r; reflexivity.
  - rewrite IH. reflexivity.
Qed.

Lemma drop_app (pre r : string) : drop (String.length pre) (pre ++ r) = r.
Proof. induction pre as [| a pre IH]; [reflexivity | exact IH]. Qed.

Lemma length_app (a b : string) :
  String.length (a ++ b) = (String.length a + String.length b)%nat.
Proof. induction a as [| x a IH]; cbn; [reflexivity | rewrite IH; reflexivity]. Qed.

Lemma Index_here (s old : string) :
  Bytes.HasPrefix s old = true -> Bytes.Index s old = Some O.
Proof. intros H. destruct s; cbn [Bytes.Index]; rewrite H; reflexivity. Qed.

(** [Index] finds the first occurrence. *)
Lemma Index_first (old pre post s : string) :
  first_occurrence old pre post s ->
  Bytes.Index s old = Some (String.length pre).
Proof.
  revert s. induction pre as [| c pre IH]; intros s [Hs Hmin].
  - subst s. cbn [append]. apply Index_here, HasPrefix_app.
  - subst s. cbn [append Bytes.Index String.length].
    destruct (Bytes.HasPrefix (String c (pre ++ old ++ post)) old) eqn:Hp.
    + apply HasPrefix_split in Hp as [r Hr].
      specialize (Hmin "" r Hr). cbn in Hmin. lia.
    + rewrite (IH (pre ++ old ++ post)); [reflexivity |].
      split; [reflexivity |].
      intros pre' post' E.
      specialize (Hmin (String c pre') post').
      cbn in Hmin. rewrite E in Hmin. specialize (Hmin eq_refl). lia.
Qed.

Lemma Index_none (old s : string) :
  Bytes.Index s old = None -> ~ occurs old s.
Proof.
  intros Hnone (pre & post & Hs). revert s Hnone Hs.
  induction pre as [| c pre IH]; intros s Hnone Hs; subst s.
  - cbn [append] in Hnone.
    rewrite (Index_here _ _ (HasPrefix_app old post)) in Hnone.
    discriminate Hnone.
  - cbn [append Bytes.Index] in Hnone.
    destruct (Bytes.HasPrefix (String c (pre ++ old ++ post)) old);
      [discriminate Hnone |].
    destruct (Bytes.Index (pre ++ old ++ post) old) eqn:E;
      [discriminate Hnone |].
    exact (IH _ E eq_refl).
Qed.

Lemma Index_some_occurs (old s : string) (j : nat) :
  Bytes.Index s old = Some j -> occurs old s.
Proof.
  revert j. induction s as [| c s IH]; intros j H; cbn [Bytes.Index] in H.
  - destruct (Bytes.HasPrefix "" old) eqn:Hp; [| discriminate H].
    apply HasPrefix_split in Hp as [r Hr]. exists "", r. exact Hr.
  - destruct (Bytes.HasPrefix (String c s) old) eqn:Hp.
    + apply HasPrefix_split in Hp as [r Hr]. exists "", r. exact Hr.
    + destruct (Bytes.Index s old) as [k |] eqn:E; [| discriminate H].
      destruct (IH k eq_refl) as (pre & post & ->).
      exists (String c pre), post. reflexivity.
Qed.

Lemma Replace1_first (style : Bytes.CopyStyle) (old new pre post s : string) :
  first_occurrence old pre post s ->
  Bytes.Replace1 style s old new = Some (pre ++ new ++ post).
Proof.
  intros Hf. unfold Bytes.Replace1. rewrite (Index_first _ _ _ _ Hf).
  destruct Hf as [-> _].
  rewrite take_app. f_equal. f_equal. f_equal.
  replace (String.length pre + len old)%nat
    with (String.length (pre ++ old))
    by (rewrite length_app; reflexivity).
  rewrite <- append_assoc. apply drop_app.
Qed.

Lemma Replace1_absent (style : Bytes.CopyStyle) (old new s : string) :
  ~ occurs old s ->
  s <> "" \/ style = Bytes.MakeAndCopy ->
  Bytes.Replace1 style s old new = Some s.
Proof.
  intros Hno Hne. unfold Bytes.Replace1.
  destruct (Bytes.Index s old) as [j |] eqn:E.
  - exfalso. exact (Hno (Index_some_occurs _ _ _ E)).
  - destruct Hne as [Hne | ->]; [| reflexivity].
    destruct s; [contradiction |]. destruct style; reflexivity.
Qed.

(** [Replace1] returns [nil] only for the empty input copied by
    appending to [nil]. *)
Lemma Replace1_nil (style : Bytes.CopyStyle) (new s : string) :
  Bytes.Replace1 style s "%ID%" new = None
  <-> s = "" /\ style = Bytes.AppendToNil.
Proof.
  unfold Bytes.Replace1. split.
  - destruct (Bytes.Index s "%ID%"); [discriminate |].
    destruct style, s; try discriminate. auto.
  - intros [-> ->]. reflexivity.
Qed.

(** *** The descriptor *)

Lemma append_empty_r (s : string) : s ++ "" = s.
Proof. induction s as [| c s IH]; cbn; [reflexivity | rewrite IH; reflexivity]. Qed.

Lemma payload_send_descriptor (note : string -> Z -> string) (req : Request)
    (json : string) :
  payload note (send_descriptor req json) = json.
Proof. cbn. apply append_empty_r. Qed.


(** X23. What [Info] sends.  When the override document can be read
    and is not empty (or is empty and [bytes.Replace] hands back an
    allocated copy of it), [Info] answers 200 with the stored bytes, the
    first "%ID%" in them replaced by base URL + "/" + identifier (and
    nothing replaced when there is none).  When reading the override
    fails and the image opens, the body is the marshalled descriptor
    made of the feature set's [Info()] with the image's width and height
    and that same URL as id. *)
Theorem info_body (note : string -> Z -> string) (ih : IIIFHandler)
    (env : Env) (req : Request) (id : ID) (fp : string) :
  (forall content,
      ReadFile env (fp ++ "-info.json") = inl content ->
      content <> "" \/ bytes_copy env = Bytes.MakeAndCopy ->
      exists body,
        Info ih env req id fp
        = Called (CallReadFile (fp ++ "-info.json")) None
            :: send_descriptor req body
        /\ payload note (Info ih env req id fp) = body
        /\ status_of (Info ih env req id fp) = Some 200
        /\ (forall pre post,
              first_occurrence "%ID%" pre post content ->
              body = pre ++ (URL_String env (Base ih) ++ "/" ++ ID_String env id)
                         ++ post)
        /\ (~ occurs "%ID%" content -> body = content))
  /\ (forall err res json,
        ReadFile env (fp ++ "-info.json") = inr err ->
        NewImageResource env id fp = inl res ->
        json_Marshal env
          (mkInfo (URL_String env (Base ih) ++ "/" ++ ID_String env (res_ID res))
                  (GetWidth (res_Decoder res)) (GetHeight (res_Decoder res))
                  (info_Tiles (FeatureSet_Info env (FeatureSet_ ih)))
                  (info_Profile (FeatureSet_Info env (FeatureSet_ ih))))
        = inl json ->
        payload note (Info ih env req id fp) = json
        /\ status_of (Info ih env req id fp) = Some 200).
Proof.
  split.
  - intros content Hread Hne. rewrite Info_cases, Hread.
    destruct (Bytes.Replace1 _ content "%ID%" _) as [body |] eqn:Hrep.
    + exists body. split; [reflexivity |].
      split; [apply (payload_send_descriptor note req) |].
      split; [reflexivity |]. split.
      * intros pre post Hfirst.
        rewrite (Replace1_first _ _ _ _ _ _ Hfirst) in Hrep.
        injection Hrep as <-. reflexivity.
      * intros Hno. rewrite (Replace1_absent _ _ _ _ Hno Hne) in Hrep.
        injection Hrep as <-. reflexivity.
    + apply Replace1_nil in Hrep as [Hempty Hstyle].
      destruct Hne as [Hne | Hne]; [contradiction |].
      rewrite Hstyle in Hne. discriminate Hne.
  - intros err res json Hread Hopen Hjson. rewrite Info_cases, Hread.
    unfold generated, descriptor. rewrite Hopen, Hjson.
    split; [| reflexivity].
    cbn [payload]. apply (payload_send_descriptor note req).
Qed.

Lemma info_body_witness :
  payload no_note
    (Info demo_handler overridden (info_request []) "abc" abc_path)
  = "{id: http://localhost:12415/iiif/abc, width: 640, see: %ID%}"
  /\ payload no_note
       (Info demo_handler (world fine) (info_request []) "abc" abc_path)
     = "{descriptor}".
Proof.
  split.
  - destruct (proj1 (info_body no_note demo_handler overridden (info_request [])
                       "abc" abc_path)
                "{id: %ID%, width: 640, see: %ID%}" eq_refl)
      as (body & _ & Hpay & _ & Hfirst & _); [left; discriminate |].
    rewrite Hpay.
    apply (Hfirst "{id: " ", width: 640, see: %ID%}").
    split; [reflexivity |].
    intros pre' post' E.
    destruct pre' as [| c0 [| c1 [| c2 [| c3 [| c4 pre']]]]];
      try (cbn; lia); cbn in E; discriminate E.
  - exact (proj1 (proj2 (info_body no_note demo_handler (world fine)
                           (info_request []) "abc" abc_path)
                    _ demo_image "{descriptor}" eq_refl eq_refl eq_refl)).
Defined.

(** C6. The claim fails on an override that can be read and is empty.
    When [bytes.Replace] copies by appending to [nil], its copy of an
    empty document is [nil], which [Info] takes for "no override": the
    request goes on exactly as after a failed read.  The image is
    opened, and the answer is the error of [buildInfoJSON] (404 when the
    image does not exist) or the generated descriptor, not the stored
    bytes. *)
Theorem empty_override_is_dropped (ih : IIIFHandler) (env : Env)
    (req : Request) (id : ID) (fp : string) :
  ReadFile env (fp ++ "-info.json") = inl "" ->
  bytes_copy env = Bytes.AppendToNil ->
  Info ih env req id fp
  = Called (CallReadFile (fp ++ "-info.json")) None
      :: generated ih env req id fp
  /\ existsb is_open (Info ih env req id fp) = true
  /\ (forall err,
        NewImageResource env id fp = inr err ->
        status_of (Info ih env req id fp)
        = Some (match err with ErrImageDoesNotExist => 404 | _ => 500 end))
  /\ (forall note res json,
        NewImageResource env id fp = inl res ->
        json_Marshal env (descriptor ih env res) = inl json ->
        status_of (Info ih env req id fp) = Some 200
        /\ payload note (Info ih env req id fp) = json).
Proof.
  intros Hread Hstyle.
  assert (Hinfo : Info ih env req id fp
                  = Called (CallReadFile (fp ++ "-info.json")) None
                      :: generated ih env req id fp).
  { rewrite Info_cases, Hread, Hstyle. reflexivity. }
  rewrite Hinfo. split; [reflexivity |]. unfold generated. split; [| split].
  - destruct (NewImageResource env id fp); reflexivity.
  - intros err ->. destruct err; reflexivity.
  - intros note res json -> ->. split; [reflexivity |].
    cbn [payload]. apply (payload_send_descriptor note req).
Qed.

Lemma empty_override_is_dropped_witness :
  status_of (Info demo_handler empty_override_no_image (info_request [])
               "abc" abc_path) = Some 404
  /\ payload no_note
       (Info demo_handler empty_override (info_request []) "abc" abc_path)
     = "{descriptor}".
Proof.
  split.
  - exact (proj1 (proj2 (proj2 (empty_override_is_dropped demo_handler
                                  empty_override_no_image (info_request [])
                                  "abc" abc_path eq_refl eq_refl)))
             ErrImageDoesNotExist eq_refl).
  - exact (proj2 (proj2 (proj2 (proj2 (empty_override_is_dropped demo_handler
                                         empty_override (info_request [])
                                         "abc" abc_path eq_refl eq_refl)))
                    no_note demo_image "{descriptor}" eq_refl eq_refl)).
Defined.

(** With a library that allocates the copy, the empty override is sent
    as it is. *)
Lemma allocated_empty_override_is_sent :
  Info demo_handler empty_override_allocated (info_request []) "abc" abc_path
  = Called (CallReadFile (abc_path ++ "-info.json")) None
      :: send_descriptor (info_request []) "".
Proof. reflexivity. Qed.

(** *** Content negotiation *)


(** The elements are compared as they are: a space after the comma, or
    a parameter, makes an element differ from the media type. *)
Lemma acceptsLD_is_exact :
  acceptsLD (info_request ["application/json,application/ld+json"]) = true
  /\ acceptsLD (info_request ["application/json, application/ld+json"]) = false
  /\ acceptsLD (info_request ["application/ld+json;q=0.9"]) = false.
Proof. repeat split. Qed.











(** *** Errors *)






(** A descriptor that cannot be marshalled is a 500. *)
Lemma marshal_failure_is_500 :
  Route demo_handler marshal_fails (info_request [])
  = [Called (CallReadFile "/var/local/images/abc-info.json")
            (Some (PathError "open" "/var/local/images/abc-info.json" ENOENT));
     Called (CallNewImageResource "abc" abc_path) None;
     Called (CallMarshal (descriptor demo_handler marshal_fails demo_image))
            (Some (errorString "unsupported value"));
     log_Printf "ERROR!  Unable to marshal IIIFInfo response: unsupported value";
     Resp (http_Error "Server error" 500)]
  /\ status_of (Route demo_handler marshal_fails (info_request [])) = Some 500.
Proof. repeat split. Qed.

(** * Further properties *)

(** ** The size parser *)

Lemma Split_with (s : string) (c : ascii) :
  contains s c = true -> exists v0 v1 vs, Split s c = v0 :: v1 :: vs.
Proof.
  induction s as [| a s IH]; cbn; [discriminate |].
  destruct (Ascii.eqb a c); cbn.
  - intros _. destruct (Split s c) as [| v1 vs] eqn:E.
    + destruct (Split_not_nil _ _ E).
    + eauto.
  - intros Hc. destruct (IH Hc) as (v0 & v1 & vs & ->). eauto.
Qed.

Lemma pct_form (p : string) :
  (Bytes.HasPrefix p "pct:" && Nat.ltb 4 (len p))%bool = true
  <-> exists f, f <> "" /\ p = "pct:" ++ f.
Proof.
  split.
  - intros H. apply andb_true_iff in H as [Hp Hl].
    apply HasPrefix_split in Hp as [f ->]. exists f. split; [| reflexivity].
    intros ->. discriminate Hl.
  - intros (f & Hf & ->). destruct f; [contradiction | reflexivity].
Qed.

(** X1. [StringToSize] returns exactly on "full", on "pct:" followed by
    at least one byte, and on the inputs that hold a comma once a
    leading "!" is taken off; on every other input it panics. *)
Theorem StringToSize_returns_iff (p : string) :
  (exists s, StringToSize p = Returns s)
  <-> p = "full"
      \/ (exists f, f <> "" /\ p = "pct:" ++ f)
      \/ contains (unbang p) comma = true.
Proof.
  rewrite StringToSize_cases, <- pct_form.
  destruct (String.eqb_spec p "full") as [-> | Hfull].
  { split; [auto | eauto]. }
  destruct (Bytes.HasPrefix p "pct:" && Nat.ltb 4 (len p))%bool.
  { split; [auto | eauto]. }
  destruct p as [| a r].
  { split; [intros [s Hs]; discriminate Hs |].
    intros [H | [H | H]]; [contradiction | discriminate H | discriminate H]. }
  cbv zeta. unfold unbang.
  destruct (Split (if Ascii.eqb a "!" then r else String a r) comma)
    as [| v0 [| v1 vs]] eqn:E.
  - destruct (Split_not_nil _ _ E).
  - split; [intros [s Hs]; discriminate Hs |].
    intros [H | [H | H]]; [contradiction | discriminate H |].
    apply Split_with in H as (x0 & x1 & xs & Hx). rewrite Hx in E.
    discriminate E.
  - split; [| eauto]. intros _. right. right.
    exact (Split_two_contains _ _ _ _ _ E).
Qed.

Ltac decide_tags :=
  unfold STNone, STFull, STScaleToWidth, STScaleToHeight, STScalePercent,
    STExact, STBestFit in *;
  repeat split; intros; try discriminate; try lia; try contradiction; auto.

(** X2. A returned size never has the tag [STNone]: the tag is one of
    the six kinds, and the prefix of the input decides it: [STFull] for
    "full" alone, [STScalePercent] for the prefix "pct:", [STBestFit]
    for the prefix "!". *)
Theorem returned_tag (p : string) (s : Size) :
  StringToSize p = Returns s ->
  STFull <= Type_ s <= STBestFit
  /\ (Type_ s = STFull <-> p = "full")
  /\ (Type_ s = STScalePercent <-> Bytes.HasPrefix p "pct:" = true)
  /\ (Type_ s = STBestFit <-> Bytes.HasPrefix p "!" = true).
Proof.
  rewrite StringToSize_cases.
  destruct (String.eqb_spec p "full") as [-> | Hfull].
  { intros H. injection H as <-. cbn. decide_tags. }
  destruct (Bytes.HasPrefix p "pct:" && Nat.ltb 4 (len p))%bool eqn:Hpct.
  { intros H. injection H as <-.
    apply andb_true_iff in Hpct as [Hp _].
    apply HasPrefix_split in Hp as [f ->]. cbn [Type_].
    rewrite (HasPrefix_app "pct:" f). decide_tags. }
  destruct p as [| a r]; [discriminate |]. cbv zeta.
  destruct (Split (if Ascii.eqb a "!" then r else String a r) comma)
    as [| v0 [| v1 vs]] eqn:E; try discriminate.
  intros H. injection H as <-. cbn [Type_].
  assert (Hc : contains (String a r) comma = true).
  { destruct (Ascii.eqb a "!") eqn:Ha.
    - cbn. rewrite (Split_two_contains _ _ _ _ _ E). apply orb_true_r.
    - exact (Split_two_contains _ _ _ _ _ E). }
  assert (Hnp : Bytes.HasPrefix (String a r) "pct:" = false).
  { destruct (Bytes.HasPrefix (String a r) "pct:") eqn:Hp; [| reflexivity].
    exfalso. cbn [andb] in Hpct.
    apply HasPrefix_split in Hp as [f Hf]. rewrite Hf in Hpct, Hc.
    destruct f; [discriminate Hc | discriminate Hpct]. }
  assert (Hbang : Bytes.HasPrefix (String a r) "!" = Ascii.eqb a "!").
  { cbn [Bytes.HasPrefix]. rewrite Ascii.eqb_sym.
    destruct r; apply andb_true_r. }
  rewrite Hnp, Hbang.
  destruct (Ascii.eqb a "!").
  - decide_tags.
  - destruct (String.eqb v0 ""); [| destruct (String.eqb v1 "")];
      decide_tags.
Qed.

Lemma returned_tag_witness :
  STFull <= Type_ (mkSize STBestFit zero 150 75) <= STBestFit
  /\ (Type_ (mkSize STBestFit zero 150 75) = STFull <-> "!150,75" = "full")
  /\ (Type_ (mkSize STBestFit zero 150 75) = STScalePercent
      <-> Bytes.HasPrefix "!150,75" "pct:" = true)
  /\ (Type_ (mkSize STBestFit zero 150 75) = STBestFit
      <-> Bytes.HasPrefix "!150,75" "!" = true).
Proof.
  apply (returned_tag "!150,75" (mkSize STBestFit zero 150 75)).
  vm_compute. reflexivity.
Defined.

Lemma contains_comma_not_full (w r : string) :
  String.eqb (w ++ String comma r) "full" = false.
Proof.
  apply comma_not_full. rewrite contains_app. cbn [contains].
  rewrite Ascii.eqb_refl. apply orb_true_r.
Qed.

(** The first two pieces of an input without the "pct:" prefix decide
    the result. *)
Lemma StringToSize_tokens (p v0 v1 : string) (vs : list string) :
  Bytes.HasPrefix p "pct:" = false ->
  size_tokens p = v0 :: v1 :: vs ->
  StringToSize p
  = Returns (mkSize (if Bytes.HasPrefix p "!" then STBestFit
                     else if String.eqb v0 "" then STScaleToHeight
                     else if String.eqb v1 "" then STScaleToWidth
                     else STExact)
                    zero (fst (Atoi v0)) (fst (Atoi v1))).
Proof.
  intros Hpct Htok. rewrite StringToSize_cases, Hpct. cbn [andb].
  destruct (String.eqb_spec p "full") as [-> | _]; [discriminate Htok |].
  destruct p as [| a r]; [discriminate Htok |].
  cbv zeta. cbn [size_tokens] in Htok. rewrite Htok.
  assert (Hbang : Bytes.HasPrefix (String a r) "!" = Ascii.eqb a "!").
  { cbn [Bytes.HasPrefix]. rewrite Ascii.eqb_sym.
    destruct r; apply andb_true_r. }
  rewrite Hbang. reflexivity.
Qed.

Lemma size_tokens_pair (w r : string) :
  contains w comma = false ->
  size_tokens (w ++ String comma r) = unbang w :: Split r comma.
Proof.
  intros Hw. destruct w as [| a w]; cbn [append size_tokens unbang].
  - cbn. reflexivity.
  - destruct (Ascii.eqb a "!").
    + cbn in Hw. apply orb_false_iff in Hw as [_ Hw].
      apply Split_at_first. exact Hw.
    + change (String a (w ++ String comma r))
        with (String a w ++ String comma r).
      apply Split_at_first. exact Hw.
Qed.

(** X3. What follows a second comma is not looked at: "w,h,anything"
    is read as "w,h" (the "pct:" form apart, whose whole tail goes to
    [ParseFloat]). *)
Theorem pieces_after_second_ignored (w h rest : string) :
  contains w comma = false -> contains h comma = false ->
  Bytes.HasPrefix w "pct:" = false ->
  StringToSize (w ++ "," ++ h ++ "," ++ rest) = StringToSize (w ++ "," ++ h).
Proof.
  intros Hw Hh Hpct.
  change (w ++ "," ++ h ++ "," ++ rest)
    with (w ++ String comma (h ++ String comma rest)).
  change (w ++ "," ++ h) with (w ++ String comma h).
  rewrite (StringToSize_tokens (w ++ String comma (h ++ String comma rest))
             (unbang w) h (Split rest comma)).
  - rewrite (StringToSize_tokens (w ++ String comma h) (unbang w) h []).
    + rewrite !HasPrefix_before by reflexivity. reflexivity.
    + rewrite HasPrefix_before by reflexivity. exact Hpct.
    + rewrite (size_tokens_pair _ _ Hw), (Split_without _ _ Hh). reflexivity.
  - rewrite HasPrefix_before by reflexivity. exact Hpct.
  - rewrite (size_tokens_pair _ _ Hw), (Split_at_first _ _ _ Hh). reflexivity.
Qed.

Lemma pieces_after_second_ignored_witness :
  StringToSize "150,75,and,more" = StringToSize "150,75".
Proof.
  exact (pieces_after_second_ignored "150" "75" "and,more"
           eq_refl eq_refl eq_refl).
Defined.

(** *** Decimal numerals *)

Lemma decimal_from_ge (s : string) (acc : Z) :
  all_digits s = true -> 0 <= acc -> acc <= decimal_from acc s.
Proof.
  revert acc. induction s as [| c s IH]; intros acc Hd Hacc; cbn; [lia |].
  cbn in Hd. apply andb_true_iff in Hd as [Hc Hs].
  unfold is_digit in Hc. apply andb_true_iff in Hc as [H0 H9].
  apply Z.leb_le in H0, H9.
  assert (Hv : 0 <= digit_val c <= 9) by (unfold digit_val; lia).
  specialize (IH (acc * 10 + digit_val c) Hs). lia.
Qed.

(** The loop of [ParseUint] on digits: the number written, or the
    largest [uint64] with a range error when the number is larger. *)
Lemma ParseUint_loop_digits (s : string) (acc : Z) :
  all_digits s = true -> 0 <= acc <= maxUint64 ->
  ParseUint_loop s acc
  = if decimal_from acc s <=? maxUint64 then (decimal_from acc s, None)
    else (maxUint64, Some ErrRange).
Proof.
  revert acc. induction s as [| c s IH]; intros acc Hd Hacc.
  - cbn [ParseUint_loop decimal_from].
    destruct (Z.leb_spec acc maxUint64); [reflexivity | lia].
  - cbn in Hd. apply andb_true_iff in Hd as [Hc Hs].
    cbn [ParseUint_loop decimal_from]. rewrite Hc.
    unfold is_digit in Hc. apply andb_true_iff in Hc as [H0 H9].
    apply Z.leb_le in H0, H9.
    assert (Hv : 0 <= digit_val c <= 9) by (unfold digit_val; lia).
    assert (Hge := decimal_from_ge s (acc * 10 + digit_val c) Hs).
    assert (Hmax : maxUint64 = 18446744073709551615) by reflexivity.
    assert (Hcut : maxUint64 / 10 + 1 = 1844674407370955162) by reflexivity.
    rewrite Hcut.
    destruct (Z.leb_spec 1844674407370955162 acc).
    + destruct (Z.leb_spec (decimal_from (acc * 10 + digit_val c) s) maxUint64);
        [lia | reflexivity].
    + destruct (Z.ltb_spec maxUint64 (acc * 10 + digit_val c)).
      * destruct (Z.leb_spec (decimal_from (acc * 10 + digit_val c) s) maxUint64);
          [lia | reflexivity].
      * apply IH; [exact Hs | lia].
Qed.

(** [Atoi] on a numeral without sign: the number written, or the
    largest [int] with a range error. *)
Lemma Atoi_digits (s : string) :
  s <> "" -> all_digits s = true ->
  Atoi s = if decimal_value s <=? MaxInt then (decimal_value s, None)
           else (MaxInt, Some ErrRange).
Proof.
  intros Hne Hd. destruct s as [| c s]; [contradiction |].
  unfold Atoi, ParseInt.
  assert (Hc : is_digit c = true).
  { cbn in Hd. apply andb_true_iff in Hd as [Hc _]. exact Hc. }
  assert (Hplus : Ascii.eqb c "+" = false).
  { destruct (Ascii.eqb_spec c "+") as [-> | _]; [discriminate Hc | reflexivity]. }
  assert (Hminus : Ascii.eqb c "-" = false).
  { destruct (Ascii.eqb_spec c "-") as [-> | _]; [discriminate Hc | reflexivity]. }
  rewrite Hplus, Hminus. cbn [ParseUint].
  rewrite (ParseUint_loop_digits (String c s) 0 Hd)
    by (split; [lia | discriminate]).
  fold (decimal_value (String c s)).
  assert (Hge : 0 <= decimal_value (String c s))
    by (apply decimal_from_ge; [exact Hd | lia]).
  assert (Hmax : maxUint64 = 18446744073709551615) by reflexivity.
  assert (Hint : MaxInt = 9223372036854775807) by reflexivity.
  assert (Hpow : 2 ^ 63 = 9223372036854775808) by reflexivity.
  destruct (Z.leb_spec (decimal_value (String c s)) maxUint64);
    cbn [negb andb]; rewrite Hpow.
  - destruct (Z.leb_spec 9223372036854775808 (decimal_value (String c s)));
      destruct (Z.leb_spec (decimal_value (String c s)) MaxInt);
      try lia; reflexivity.
  - destruct (Z.leb_spec 9223372036854775808 maxUint64); [| lia].
    destruct (Z.leb_spec (decimal_value (String c s)) MaxInt); [lia |].
    reflexivity.
Qed.

Lemma digits_plain (s : string) :
  s <> "" -> all_digits s = true ->
  contains s comma = false
  /\ Bytes.HasPrefix s "pct:" = false
  /\ Bytes.HasPrefix s "!" = false
  /\ unbang s = s /\ String.eqb s "" = false.
Proof.
  intros Hne Hd.
  assert (Hc : contains s comma = false).
  { clear Hne. induction s as [| c s IH]; [reflexivity |].
    cbn in Hd. apply andb_true_iff in Hd as [Hc Hs]. cbn.
    rewrite (IH Hs), orb_false_r.
    destruct (Ascii.eqb_spec c comma) as [-> | _];
      [discriminate Hc | reflexivity]. }
  split; [exact Hc |].
  destruct s as [| c s]; [contradiction |].
  cbn in Hd. apply andb_true_iff in Hd as [Hd _].
  cbn [Bytes.HasPrefix unbang].
  destruct (Ascii.eqb_spec "p" c) as [<- | _]; [discriminate Hd |].
  destruct (Ascii.eqb_spec "!" c) as [<- | _]; [discriminate Hd |].
  destruct (Ascii.eqb_spec c "!") as [-> | _]; [discriminate Hd |].
  auto.
Qed.

(** X4. A size written as two decimal numerals "w,h" is the exact
    size of those two numbers, each capped at the largest [int]; it is
    valid exactly when neither number is zero. *)
Theorem decimal_size (w h : string) :
  w <> "" -> h <> "" -> all_digits w = true -> all_digits h = true ->
  StringToSize (w ++ "," ++ h)
  = Returns (mkSize STExact zero (Z.min (decimal_value w) MaxInt)
                    (Z.min (decimal_value h) MaxInt))
  /\ (Valid (mkSize STExact zero (Z.min (decimal_value w) MaxInt)
                    (Z.min (decimal_value h) MaxInt)) = true
      <-> 0 < decimal_value w /\ 0 < decimal_value h).
Proof.
  intros Hw Hh Hdw Hdh.
  destruct (digits_plain w Hw Hdw) as (Hcw & Hpw & Hbw & Huw & Hew).
  destruct (digits_plain h Hh Hdh) as (Hch & _ & _ & _ & Heh).
  assert (Hmin : forall s, s <> "" -> all_digits s = true ->
                   fst (Atoi s) = Z.min (decimal_value s) MaxInt).
  { intros s Hs Hd. rewrite (Atoi_digits s Hs Hd).
    destruct (Z.leb_spec (decimal_value s) MaxInt); cbn [fst]; lia. }
  split.
  - change (w ++ "," ++ h) with (w ++ String comma h).
    rewrite (StringToSize_tokens (w ++ String comma h) w h []).
    + rewrite !HasPrefix_before by reflexivity.
      rewrite Hbw, Hew, Heh, (Hmin w Hw Hdw), (Hmin h Hh Hdh). reflexivity.
    + rewrite HasPrefix_before by reflexivity. exact Hpw.
    + rewrite (size_tokens_pair _ _ Hcw), Huw, (Split_without _ _ Hch).
      reflexivity.
  - unfold Valid. cbn [Type_ W H orb andb Z.eqb STExact STFull
                         STScaleToWidth STScaleToHeight STScalePercent].
    cbn. rewrite andb_true_iff, !Z.ltb_lt.
    assert (0 < MaxInt) by reflexivity. lia.
Qed.

Lemma decimal_size_witness :
  StringToSize "1024,768" = Returns (mkSize STExact zero 1024 768)
  /\ StringToSize "99999999999999999999,1"
     = Returns (mkSize STExact zero MaxInt 1).
Proof.
  split.
  - exact (proj1 (decimal_size "1024" "768" ltac:(discriminate)
                    ltac:(discriminate) eq_refl eq_refl)).
  - exact (proj1 (decimal_size "99999999999999999999" "1" ltac:(discriminate)
                    ltac:(discriminate) eq_refl eq_refl)).
Defined.

(** X5. Best fit needs both numbers: "!w," and "!,h" are read as best
    fit (not as a fit to the width or to the height) with the missing
    number at zero, and are not valid. *)
Theorem best_fit_needs_both (w h : string) :
  contains w comma = false -> contains h comma = false ->
  w = "" \/ h = "" ->
  exists s, StringToSize ("!" ++ w ++ "," ++ h) = Returns s
            /\ Type_ s = STBestFit /\ Valid s = false.
Proof.
  intros Hw Hh Hempty.
  change ("!" ++ w ++ "," ++ h) with (String "!" w ++ String comma h).
  assert (Hp : Bytes.HasPrefix (String "!" w ++ String comma h) "!" = true)
    by (destruct w; reflexivity).
  rewrite (StringToSize_tokens (String "!" w ++ String comma h) w h []).
  - rewrite Hp. eexists. split; [reflexivity |]. split; [reflexivity |].
    unfold Valid. cbn [Type_ W H]. cbn -[Atoi Z.ltb].
    destruct Hempty as [-> | ->]; cbn; [reflexivity | apply andb_false_r].
  - reflexivity.
  - rewrite size_tokens_pair.
    + cbn [unbang]. rewrite (Split_without _ _ Hh). reflexivity.
    + cbn. exact Hw.
Qed.

Lemma best_fit_needs_both_witness :
  exists s, StringToSize "!150," = Returns s
            /\ Type_ s = STBestFit /\ Valid s = false.
Proof.
  exact (best_fit_needs_both "150" "" eq_refl eq_refl (or_intror eq_refl)).
Defined.

(** ** Where a request goes *)

Lemma strip_prefix_some (pre s r : string) :
  Regex.strip_prefix pre s = Some r <-> s = pre ++ r.
Proof.
  split.
  - revert s. induction pre as [| a pre IH]; intros s H; cbn in *.
    + injection H as ->. reflexivity.
    + destruct s as [| b s]; [discriminate H |].
      destruct (Ascii.eqb_spec a b) as [-> | _]; [| discriminate H].
      rewrite (IH s H). reflexivity.
  - intros ->. apply strip_prefix_app.
Qed.

Lemma span_segment_spec (s seg rest : string) :
  Regex.span_segment s = (seg, rest) ->
  s = seg ++ rest /\ contains seg "/" = false
  /\ (rest = "" \/ exists r, rest = String "/" r).
Proof.
  revert seg rest. induction s as [| c s IH]; intros seg rest H; cbn in H.
  - injection H as <- <-. auto.
  - destruct (Ascii.eqb_spec c "/") as [-> | Hc].
    + injection H as <- <-. eauto.
    + destruct (Regex.span_segment s) as [seg' rest'].
      injection H as <- <-.
      destruct (IH seg' rest' eq_refl) as (-> & Hseg & Hrest).
      split; [reflexivity |]. split; [| exact Hrest].
      cbn. rewrite Hseg, orb_false_r.
      destruct (Ascii.eqb_spec c "/"); [contradiction | reflexivity].
Qed.

Lemma span_segment_app (seg rest : string) :
  contains seg "/" = false ->
  rest = "" \/ (exists r, rest = String "/" r) ->
  Regex.span_segment (seg ++ rest) = (seg, rest).
Proof.
  intros Hseg Hrest. induction seg as [| c seg IH]; cbn.
  - destruct Hrest as [-> | [r ->]]; reflexivity.
  - cbn in Hseg. apply orb_false_iff in Hseg as [Hc Hseg].
    rewrite Hc, (IH Hseg). reflexivity.
Qed.

(** The pattern [^<path>/([^/]+)] matches exactly the strings that
    begin with [<path>/] and a non-empty segment. *)
Lemma match_ident_spec (path p seg rest : string) :
  Regex.match_ident path p = Some (seg, rest)
  <-> p = path ++ "/" ++ seg ++ rest
      /\ seg <> "" /\ contains seg "/" = false
      /\ (rest = "" \/ exists r, rest = String "/" r).
Proof.
  unfold Regex.match_ident. split.
  - destruct (Regex.strip_prefix (path ++ "/") p) as [r |] eqn:Hp;
      [| discriminate].
    apply strip_prefix_some in Hp. subst p.
    destruct (Regex.span_segment r) as [seg' rest'] eqn:Hs.
    destruct seg' as [| c seg']; [discriminate |].
    intros H. injection H as <- <-.
    destruct (span_segment_spec _ _ _ Hs) as (-> & Hseg & Hrest).
    rewrite append_assoc. split; [reflexivity |].
    split; [discriminate | auto].
  - intros (-> & Hne & Hseg & Hrest).
    rewrite <- append_assoc, strip_prefix_app, (span_segment_app _ _ Hseg Hrest).
    destruct seg; [contradiction | reflexivity].
Qed.

Lemma match_ident_none (path p : string) :
  Regex.match_ident path p = None
  <-> ~ exists c r, c <> "/"%char /\ p = path ++ "/" ++ String c r.
Proof.
  split.
  - intros Hnone (c & r & Hc & ->).
    destruct (Regex.span_segment (String c r)) as [seg rest] eqn:Hs.
    assert (Hm : Regex.match_ident path (path ++ "/" ++ String c r)
                 = Some (seg, rest)).
    { unfold Regex.match_ident.
      rewrite <- append_assoc, strip_prefix_app, Hs.
      cbn in Hs. destruct (Ascii.eqb_spec c "/"); [contradiction |].
      destruct (Regex.span_segment r). injection Hs as <- <-. reflexivity. }
    rewrite Hm in Hnone. discriminate Hnone.
  - intros Hno.
    destruct (Regex.match_ident path p) as [[seg rest] |] eqn:Hm;
      [| reflexivity].
    exfalso. apply Hno.
    apply match_ident_spec in Hm as (-> & Hne & Hseg & _).
    destruct seg as [| c seg]; [contradiction |].
    exists c, (seg ++ rest). split; [| reflexivity].
    cbn in Hseg. apply orb_false_iff in Hseg as [Hc _].
    intros ->. discriminate Hc.
Qed.

(** X6. A request whose URI does not begin with the base path, a slash
    and a byte other than a slash is answered by [http.NotFound] and by
    nothing else; every other request gets another answer. *)
Theorem unrouted_is_not_found (u : url_URL) (widths : list Z) (tp : string)
    (env : Env) (req : Request) :
  Regex.regexp_literal (Path u) = true ->
  (Route (NewIIIFHandler u widths tp) env req = [Resp http_NotFound]
   <-> ~ exists c r, c <> "/"%char
                     /\ RequestURI req = Path u ++ "/" ++ String c r).
Proof.
  intros _. rewrite <- match_ident_none. unfold Route.
  cbn [NewIIIFHandler BaseRegex FindStringSubmatch Regex.base].
  destruct (Regex.match_ident (Path u) (RequestURI req)) as [[seg rest] |].
  - split; [| discriminate]. cbn [index nth_error].
    destruct (MatchString _ _); [discriminate |].
    destruct (MatchString _ _).
    + rewrite Info_cases.
      destruct (ReadFile env _) as [c | e];
        [destruct (Bytes.Replace1 _ c _ _) |]; discriminate.
    + destruct (NewImageResource env seg _); discriminate.
  - split; reflexivity.
Qed.

Lemma unrouted_is_not_found_witness :
  Route demo_handler (world fine) (get "/images/abc/info.json" [])
  = [Resp http_NotFound].
Proof.
  apply (unrouted_is_not_found demo_base [256; 512] "/var/local/images"
           (world fine) (get "/images/abc/info.json" []) eq_refl).
  intros (c & r & _ & H). discriminate H.
Defined.

(** The dispatch of a handler made by [NewIIIFHandler], by the shape
    of the URI. *)
Lemma NewIIIFHandler_dispatch (u : url_URL) (widths : list Z) (tp : string)
    (env : Env) (req : Request) (seg rest : string) :
  seg <> "" -> contains seg "/" = false ->
  rest = "" \/ (exists r, rest = String "/" r) ->
  RequestURI req = Path u ++ "/" ++ seg ++ rest ->
  FindStringSubmatch (BaseRegex (NewIIIFHandler u widths tp)) (RequestURI req)
  = Some [Path u ++ "/" ++ seg; seg]
  /\ dispatch (NewIIIFHandler u widths tp) env req
     = match rest with
       | EmptyString => BaseOnly
       | _ => if Regex.match_info_tail rest
              then InfoRequest seg (tp ++ "/" ++ ID_Path env seg)
              else CommandRequest seg (tp ++ "/" ++ ID_Path env seg)
       end.
Proof.
  intros Hne Hseg Hrest Huri.
  assert (Hm : Regex.match_ident (Path u) (RequestURI req) = Some (seg, rest))
    by (apply match_ident_spec; auto).
  unfold dispatch.
  cbn [NewIIIFHandler BaseRegex BaseOnlyRegex InfoPathRegex TilePath
         FindStringSubmatch MatchString Regex.base Regex.base_only
         Regex.info_path].
  rewrite Hm. split; [reflexivity |].
  cbn [index nth_error]. destruct rest as [| c rest]; [reflexivity |].
  cbn [Regex.is_some].
  destruct (Regex.match_info_tail (String c rest)); reflexivity.
Qed.

(** X7. The dispatch of a handler made by [NewIIIFHandler]: a URI made
    of the base path, a slash, a non-empty segment without slash and a
    rest that is empty or begins with a slash has that segment as its
    identifier and [<tile path>/<identifier path>] as its file; it is a
    base-only request when the rest is empty, an info request when the
    rest matches [/info.json$], a command otherwise. *)
Theorem dispatch_table (u : url_URL) (widths : list Z) (tp : string)
    (env : Env) (req : Request) (seg rest : string) :
  Regex.regexp_literal (Path u) = true ->
  seg <> "" -> contains seg "/" = false ->
  rest = "" \/ (exists r, rest = String "/" r) ->
  RequestURI req = Path u ++ "/" ++ seg ++ rest ->
  FindStringSubmatch (BaseRegex (NewIIIFHandler u widths tp)) (RequestURI req)
  = Some [Path u ++ "/" ++ seg; seg]
  /\ dispatch (NewIIIFHandler u widths tp) env req
     = match rest with
       | EmptyString => BaseOnly
       | _ => if Regex.match_info_tail rest
              then InfoRequest seg (tp ++ "/" ++ ID_Path env seg)
              else CommandRequest seg (tp ++ "/" ++ ID_Path env seg)
       end.
Proof. intros _. apply NewIIIFHandler_dispatch. Qed.

Lemma dispatch_table_witness :
  dispatch demo_handler (world fine) command_request
  = CommandRequest "abc" "/var/local/images/abc".
Proof.
  exact (proj2 (dispatch_table demo_base [256; 512] "/var/local/images"
                  (world fine) command_request "abc" "/full/full/0/default.jpg"
                  eq_refl ltac:(discriminate) eq_refl
                  (or_intror (ex_intro _ "full/full/0/default.jpg" eq_refl))
                  eq_refl)).
Defined.

(** X8. The identifier [Route] works with is never empty and holds no
    slash; the URI begins with the base path, a slash and that
    identifier, and the file is looked for under the tile path. *)
Theorem identifier_invariant (u : url_URL) (widths : list Z) (tp : string)
    (env : Env) (req : Request) (id : ID) (fp : string) :
  Regex.regexp_literal (Path u) = true ->
  dispatch (NewIIIFHandler u widths tp) env req = InfoRequest id fp
  \/ dispatch (NewIIIFHandler u widths tp) env req = CommandRequest id fp ->
  id <> "" /\ contains id "/" = false
  /\ (exists rest, RequestURI req = Path u ++ "/" ++ id ++ rest)
  /\ fp = tp ++ "/" ++ ID_Path env id.
Proof.
  intros _. unfold dispatch.
  cbn [NewIIIFHandler BaseRegex BaseOnlyRegex InfoPathRegex TilePath
         FindStringSubmatch MatchString Regex.base].
  destruct (Regex.match_ident (Path u) (RequestURI req)) as [[seg rest] |] eqn:Hm.
  - apply match_ident_spec in Hm as (Huri & Hne & Hseg & _).
    cbn [index nth_error].
    destruct (MatchString (Regex.base_only _) _);
      [intros [H | H]; discriminate H |].
    destruct (MatchString (Regex.info_path _) _); intros [H | H];
      try discriminate H; injection H as <- <-; eauto.
  - intros [H | H]; discriminate H.
Qed.

Lemma identifier_invariant_witness :
  "abc" <> "" /\ contains "abc" "/" = false
  /\ (exists rest, RequestURI command_request = Path demo_base ++ "/" ++ "abc" ++ rest)
  /\ abc_path = "/var/local/images" ++ "/" ++ ID_Path (world fine) "abc".
Proof.
  exact (identifier_invariant demo_base [256; 512] "/var/local/images"
           (world fine) command_request "abc" abc_path eq_refl
           (or_intror eq_refl)).
Defined.

(** X9. The three patterns agree with each other: a URI that matches
    the base-only pattern or the info pattern matches the base pattern
    (so [Route] never meets one of them with no identifier), and no URI
    matches both the base-only and the info pattern. *)
Theorem patterns_agree (u : url_URL) (widths : list Z) (tp : string)
    (p : string) :
  Regex.regexp_literal (Path u) = true ->
  (MatchString (BaseOnlyRegex (NewIIIFHandler u widths tp)) p = true ->
   MatchString (BaseRegex (NewIIIFHandler u widths tp)) p = true)
  /\ (MatchString (InfoPathRegex (NewIIIFHandler u widths tp)) p = true ->
      MatchString (BaseRegex (NewIIIFHandler u widths tp)) p = true)
  /\ (MatchString (BaseOnlyRegex (NewIIIFHandler u widths tp)) p
      && MatchString (InfoPathRegex (NewIIIFHandler u widths tp)) p)%bool
     = false.
Proof.
  intros _.
  cbn [NewIIIFHandler BaseRegex BaseOnlyRegex InfoPathRegex MatchString
         Regex.base Regex.base_only Regex.info_path].
  destruct (Regex.match_ident (Path u) p) as [[seg rest] |].
  - destruct rest as [| c rest]; cbn; [auto |].
    repeat split; auto.
  - cbn. repeat split; discriminate.
Qed.

Lemma patterns_agree_witness :
  MatchString (BaseOnlyRegex demo_handler) "/iiif/abc" = true
  /\ MatchString (BaseRegex demo_handler) "/iiif/abc" = true
  /\ MatchString (InfoPathRegex demo_handler) "/iiif/abc" = false.
Proof.
  destruct (patterns_agree demo_base [256; 512] "/var/local/images"
              "/iiif/abc" eq_refl) as (Hbase & _ & Hexcl).
  split; [reflexivity |]. split; [exact (Hbase eq_refl) |].
  exact Hexcl.
Defined.

(** X10. The dot of [info.json] in the info pattern is not escaped:
    with any ASCII character but a newline in its place the request is
    still an info request. *)
Theorem info_dot_is_any_character (u : url_URL) (widths : list Z)
    (tp : string) (env : Env) (req : Request) (seg : string) (c : ascii) :
  Regex.regexp_literal (Path u) = true ->
  seg <> "" -> contains seg "/" = false ->
  code c < 128 -> c <> "010"%char ->
  RequestURI req = Path u ++ "/" ++ seg ++ "/info" ++ String c "json" ->
  dispatch (NewIIIFHandler u widths tp) env req
  = InfoRequest seg (tp ++ "/" ++ ID_Path env seg).
Proof.
  intros Hlit Hne Hseg Hc Hnl Huri.
  destruct (NewIIIFHandler_dispatch u widths tp env req seg
              ("/info" ++ String c "json") Hne Hseg) as [_ Hd].
  - right. eexists. reflexivity.
  - exact Huri.
  - rewrite Hd. cbn [append].
    assert (Ht : Regex.match_info_tail
                   (String "/" (String "i" (String "n" (String "f"
                      (String "o" (String c "json")))))) = true).
    { unfold Regex.match_info_tail. cbn [Regex.strip_prefix Ascii.eqb].
      cbn -[Regex.rune_width Ascii.eqb String.eqb drop].
      destruct (Ascii.eqb_spec c "010"); [contradiction |].
      cbn [negb andb]. unfold Regex.rune_width.
      destruct (Z.ltb_spec (code c) 194); [| lia].
      reflexivity. }
    rewrite Ht. reflexivity.
Qed.

Lemma info_dot_is_any_character_witness :
  dispatch demo_handler (world fine) (get "/iiif/abc/info/json" [])
  = InfoRequest "abc" "/var/local/images/abc".
Proof.
  apply (info_dot_is_any_character demo_base [256; 512] "/var/local/images"
           (world fine) (get "/iiif/abc/info/json" []) "abc" "/");
    [reflexivity | discriminate | reflexivity | reflexivity | discriminate
     | reflexivity].
Defined.

(** ** What a request does and does not do *)

Lemma count_app (f : Event -> bool) (tr1 tr2 : list Event) :
  count f (tr1 ++ tr2) = (count f tr1 + count f tr2)%nat.
Proof. unfold count. rewrite filter_app, List.length_app. reflexivity. Qed.

Lemma count_ops (f : Event -> bool) (ops : list WriterOp) :
  (forall op, f (Resp op) = false) -> count f (map Resp ops) = O.
Proof.
  intros Hf. unfold count. induction ops as [| op ops IH]; [reflexivity |].
  cbn. rewrite Hf. exact IH.
Qed.

Lemma exists_ops (f : Event -> bool) (ops : list WriterOp) :
  (forall op, f (Resp op) = false) -> existsb f (map Resp ops) = false.
Proof.
  intros Hf. induction ops as [| op ops IH]; [reflexivity |].
  cbn. rewrite Hf. exact IH.
Qed.

Lemma Replace1_some (style : Bytes.CopyStyle) (new s : string) :
  s <> "" -> exists body, Bytes.Replace1 style s "%ID%" new = Some body.
Proof.
  intros Hne. destruct (Bytes.Replace1 style s "%ID%" new) as [b |] eqn:E;
    [eauto |].
  apply Replace1_nil in E as [E _]. contradiction.
Qed.

(** X11. An info request whose override document can be read and is
    not empty is answered 200 without the image being opened: no other
    call is made and no error arises, whether the image exists or not. *)
Theorem override_needs_no_image (ih : IIIFHandler) (env : Env) (req : Request)
    (id : ID) (fp content : string) :
  dispatch ih env req = InfoRequest id fp ->
  ReadFile env (fp ++ "-info.json") = inl content ->
  content <> "" ->
  status_of (Route ih env req) = Some 200
  /\ existsb is_open (Route ih env req) = false
  /\ errors_of (Route ih env req) = []
  /\ count is_read (Route ih env req) = 1%nat.
Proof.
  intros Hd Hread Hne.
  rewrite (Route_info _ _ _ _ _ Hd), Info_cases, Hread.
  destruct (Replace1_some (bytes_copy env) (URL_String env (Base ih) ++ "/"
              ++ ID_String env id) content Hne) as [body ->].
  repeat split.
Qed.

Lemma override_needs_no_image_witness :
  status_of (Route demo_handler
               (world (with_image (inr ErrImageDoesNotExist)
                        (with_override (inl "{id: %ID%}") fine)))
               (info_request [])) = Some 200.
Proof.
  exact (proj1 (override_needs_no_image demo_handler
                  (world (with_image (inr ErrImageDoesNotExist)
                            (with_override (inl "{id: %ID%}") fine)))
                  (info_request []) "abc" abc_path "{id: %ID%}"
                  eq_refl eq_refl ltac:(discriminate))).
Defined.

Lemma generated_counts (ih : IIIFHandler) (env : Env) (req : Request)
    (id : ID) (fp : string) :
  count is_open (generated ih env req id fp) = 1%nat
  /\ count is_read (generated ih env req id fp) = O.
Proof.
  unfold generated.
  destruct (NewImageResource env id fp) as [res | oerr].
  - destruct (json_Marshal env (descriptor ih env res)); split; reflexivity.
  - destruct oerr; split; reflexivity.
Qed.

Lemma Command_counts (ih : IIIFHandler) (env : Env) (req : Request)
    (u : iiif_URL) (res : ImageResource) :
  count is_open (Command ih env req u res) = O
  /\ count is_read (Command ih env req u res) = O.
Proof.
  assert (Ho : forall op, is_open (Resp op) = false) by reflexivity.
  assert (Hr : forall op, is_read (Resp op) = false) by reflexivity.
  unfold Command.
  destruct (sendHeaders env req (res_FilePath res)) as [sent [serr |]].
  - rewrite app_nil_r. split; [apply (count_ops is_open) | apply (count_ops is_read)];
      assumption.
  - destruct (negb (Supported env (FeatureSet_ ih) u)).
    + split;
        [change (count is_open (map Resp sent ++ [Resp (http_Error "Feature not supported" 501)]) = O)
        | change (count is_read (map Resp sent ++ [Resp (http_Error "Feature not supported" 501)]) = O)];
        rewrite count_app, count_ops by assumption; reflexivity.
    + destruct (Apply env res u) as [img | aerr].
      * destruct (EncodeImage env img (url_Format u)) as [enc [eerr |]];
          split; unfold count; cbn [filter is_open is_read];
          rewrite filter_app; cbn [filter is_open is_read];
          rewrite filter_app, List.length_app, List.length_app;
          fold (count is_open (map Resp sent)); fold (count is_read (map Resp sent));
          fold (count is_open (map Resp enc)); fold (count is_read (map Resp enc));
          rewrite !count_ops by assumption; reflexivity.
      * split; unfold count; cbn [filter is_open is_read];
          rewrite filter_app, List.length_app;
          fold (count is_open (map Resp sent)); fold (count is_read (map Resp sent));
          rewrite !count_ops by assumption; reflexivity.
Qed.

(** X12. A request opens the image at most once and reads the
    override file at most once; the override is read for info requests
    only, and there it is the first thing done. *)
Theorem one_open_one_read (ih : IIIFHandler) (env : Env) (req : Request) :
  (count is_open (Route ih env req) <= 1)%nat
  /\ (count is_read (Route ih env req) <= 1)%nat
  /\ (existsb is_read (Route ih env req) = true ->
      exists id fp e,
        dispatch ih env req = InfoRequest id fp
        /\ hd_error (Route ih env req)
           = Some (Called (CallReadFile (fp ++ "-info.json")) e)).
Proof.
  rewrite Route_dispatch.
  destruct (dispatch ih env req) as [| pe | | id fp | id fp];
    try (repeat split; cbn; try lia; discriminate).
  - rewrite Info_cases.
    destruct (generated_counts ih env req id fp) as [Ho Hr].
    destruct (ReadFile env (fp ++ "-info.json")) as [content | rerr].
    + destruct (Bytes.Replace1 _ content _ _) as [body |].
      * repeat split; cbn; try lia. intros _. eauto.
      * change (Called (CallReadFile (fp ++ "-info.json")) None
                  :: generated ih env req id fp)
          with ([Called (CallReadFile (fp ++ "-info.json")) None]
                  ++ generated ih env req id fp)%list.
        rewrite !count_app, Ho, Hr. repeat split; cbn; try lia.
        intros _. eauto.
    + change (Called (CallReadFile (fp ++ "-info.json")) (Some rerr)
                :: generated ih env req id fp)
        with ([Called (CallReadFile (fp ++ "-info.json")) (Some rerr)]
                ++ generated ih env req id fp)%list.
      rewrite !count_app, Ho, Hr. repeat split; cbn; try lia.
      intros _. eauto.
  - assert (Hr : forall op, is_read (Resp op) = false) by reflexivity.
    destruct (NewImageResource env id fp) as [res | oerr].
    + destruct (Command_counts ih env req (NewURL env (RequestURI req)) res)
        as [Hco Hcr].
      destruct (URL_Valid env (NewURL env (RequestURI req))).
      * change (Called (CallNewImageResource id fp) None
                  :: Command ih env req (NewURL env (RequestURI req)) res)
          with ([Called (CallNewImageResource id fp) None]
                  ++ Command ih env req (NewURL env (RequestURI req)) res)%list.
        rewrite !count_app, Hco, Hcr.
        split; [cbn; lia |]. split; [cbn; lia |].
        cbn [app existsb is_read orb]. intros Hex.
        exfalso. unfold count in Hcr.
        apply existsb_exists in Hex as (e & Hin & He).
        assert (Hf : In e (filter is_read
                        (Command ih env req (NewURL env (RequestURI req)) res)))
          by (apply filter_In; auto).
        destruct (filter is_read _); [exact Hf | discriminate Hcr].
      * repeat split; cbn; try lia; discriminate.
    + destruct oerr; repeat split; cbn; try lia; discriminate.
Qed.

(** ** The steps of a command *)

Lemma existsb_ops_app (f : Event -> bool) (ops : list WriterOp)
    (tr : list Event) :
  (forall op, f (Resp op) = false) ->
  existsb f (map Resp ops ++ tr) = existsb f tr.
Proof. intros Hf. rewrite existsb_app, exists_ops by assumption. reflexivity. Qed.

(** X13. [Command] starts with [sendHeaders] and goes on in a fixed
    order: the image is transformed exactly when [sendHeaders] reported
    no error and the feature set supports the request, and the encoder
    runs exactly when, on top of that, the transformation succeeded. *)
Theorem command_order (ih : IIIFHandler) (env : Env) (req : Request)
    (u : iiif_URL) (res : ImageResource) :
  hd_error (Command ih env req u res)
  = Some (Called (CallSendHeaders (res_FilePath res))
                 (snd (sendHeaders env req (res_FilePath res))))
  /\ (existsb is_apply (Command ih env req u res) = true
      <-> snd (sendHeaders env req (res_FilePath res)) = None
          /\ Supported env (FeatureSet_ ih) u = true)
  /\ (existsb is_encode (Command ih env req u res) = true
      <-> snd (sendHeaders env req (res_FilePath res)) = None
          /\ Supported env (FeatureSet_ ih) u = true
          /\ exists img, Apply env res u = inl img).
Proof.
  assert (Ha : forall op, is_apply (Resp op) = false) by reflexivity.
  assert (He : forall op, is_encode (Resp op) = false) by reflexivity.
  unfold Command.
  destruct (sendHeaders env req (res_FilePath res)) as [sent [serr |]];
    cbn [snd hd_error existsb is_apply is_encode orb];
    rewrite !existsb_ops_app by assumption.
  - split; [reflexivity |]. split; (split; [discriminate | intros [H _]; discriminate]).
  - split; [reflexivity |].
    destruct (Supported env (FeatureSet_ ih) u); cbn [negb].
    + destruct (Apply env res u) as [img | aerr].
      * destruct (EncodeImage env img (url_Format u)) as [enc eerr].
        cbn [existsb is_apply is_encode orb].
        split; (split; [intros _ | reflexivity]); eauto.
      * cbn. split; [tauto |].
        split; [discriminate | intros (_ & _ & img & Himg); discriminate].
    + cbn. split; (split; [discriminate | intros [_ [H _]] || intros [_ H]; discriminate]).
Qed.

(** ** Building the descriptor *)

(** X14. [buildInfoJSON] writes to the response exactly when it
    returns an error: then it hands back no bytes and has sent one
    answer, 404 when the image does not exist and 500 otherwise; when it
    returns no error it hands back the marshalled bytes and has left the
    response untouched.  It opens the image first in every case. *)
Theorem buildInfoJSON_answers_its_errors (ih : IIIFHandler) (env : Env)
    (id : ID) (fp : string) :
  (existsb is_response (fst (buildInfoJSON ih env id fp)) = true
   <-> snd (snd (buildInfoJSON ih env id fp)) <> None)
  /\ (snd (snd (buildInfoJSON ih env id fp)) <> None ->
      fst (snd (buildInfoJSON ih env id fp)) = Bytes.nil
      /\ count is_response (fst (buildInfoJSON ih env id fp)) = 1%nat
      /\ committed (fst (buildInfoJSON ih env id fp))
         = Some (match NewImageResource env id fp with
                 | inr ErrImageDoesNotExist => 404
                 | _ => 500
                 end))
  /\ (snd (snd (buildInfoJSON ih env id fp)) = None ->
      exists res json,
        NewImageResource env id fp = inl res
        /\ json_Marshal env (descriptor ih env res) = inl json
        /\ fst (snd (buildInfoJSON ih env id fp)) = Some json)
  /\ (exists e, hd_error (fst (buildInfoJSON ih env id fp))
                = Some (Called (CallNewImageResource id fp) e)).
Proof.
  unfold buildInfoJSON, descriptor.
  destruct (NewImageResource env id fp) as [res | oerr].
  - destruct (json_Marshal env _) as [json | merr] eqn:Hm; cbn.
    + repeat split; try discriminate; try congruence; eauto.
    + repeat split; try discriminate; try congruence; eauto.
  - cbn [fst snd]. repeat split; try discriminate; try congruence;
      try (intros _); try (destruct oerr; reflexivity).
    cbn. eauto.
Qed.

(** ** Headers of the answers *)

(** X15. An info request is answered either with 200 and the header
    [Access-Control-Allow-Origin: *], or with 404 or 500 and without
    that header: the descriptor may be fetched from any origin, the
    error messages carry no such permission. *)
Theorem info_allows_any_origin (ih : IIIFHandler) (env : Env) (req : Request)
    (id : ID) (fp : string) :
  (status_of (Info ih env req id fp) = Some 200
   /\ allow_origin_of (Info ih env req id fp) = Some "*")
  \/ ((status_of (Info ih env req id fp) = Some 404
       \/ status_of (Info ih env req id fp) = Some 500)
      /\ allow_origin_of (Info ih env req id fp) = None).
Proof.
  assert (Hgen :
    (status_of (generated ih env req id fp) = Some 200
     /\ allow_origin_of (generated ih env req id fp) = Some "*")
    \/ ((status_of (generated ih env req id fp) = Some 404
         \/ status_of (generated ih env req id fp) = Some 500)
        /\ allow_origin_of (generated ih env req id fp) = None)).
  { unfold generated.
    destruct (NewImageResource env id fp) as [res | oerr].
    - destruct (json_Marshal env (descriptor ih env res)) as [json | merr].
      + left. split; reflexivity.
      + right. split; [right |]; reflexivity.
    - right. destruct oerr; (split; [auto |]; reflexivity). }
  rewrite Info_cases.
  destruct (ReadFile env (fp ++ "-info.json")) as [content | rerr].
  - destruct (Bytes.Replace1 _ content _ _) as [body |].
    + left. split; reflexivity.
    + exact Hgen.
  - exact Hgen.
Qed.

Lemma content_type_from_app (cur : option string) (tr1 tr2 : list Event) :
  committed tr1 = None ->
  content_type_from cur (tr1 ++ tr2)
  = content_type_from (content_type_from cur tr1) tr2.
Proof.
  revert cur. induction tr1 as [| e tr1 IH]; intros cur Hc; [reflexivity |].
  destruct e as [op | msg | c err | pe]; cbn in Hc |- *; try (apply IH; exact Hc).
  destruct op; cbn in Hc; try discriminate.
  destruct (String.eqb key "Content-Type"); apply IH; exact Hc.
Qed.

(** X16. The Content-Type of an image is the one [mime.TypeByExtension]
    gives for the format named in the URL: when [sendHeaders] reported no
    error and sent no status, the request is supported, the
    transformation succeeded and the encoder starts by writing bytes, the
    answer is 200 with that type, whatever type [sendHeaders] had put in
    the header and whether or not the encoder fails later on. *)
Theorem image_content_type (ih : IIIFHandler) (env : Env) (req : Request)
    (u : iiif_URL) (res : ImageResource) (sent rest : list WriterOp)
    (img : Image) (b : string) (e : option error) :
  sendHeaders env req (res_FilePath res) = (sent, None) ->
  committed (map Resp sent) = None ->
  Supported env (FeatureSet_ ih) u = true ->
  Apply env res u = inl img ->
  EncodeImage env img (url_Format u) = (Write b :: rest, e) ->
  status_of (Command ih env req u res) = Some 200
  /\ content_type_of (Command ih env req u res)
     = Some (TypeByExtension env ("." ++ url_Format u)).
Proof.
  intros Hs Hc Hsup Ha He. unfold Command. rewrite Hs, Hsup, Ha, He.
  cbn [negb]. split.
  - apply status_of_committed. cbn [committed].
    rewrite committed_app, Hc. reflexivity.
  - unfold content_type_of. cbn [content_type_from].
    rewrite content_type_from_app by exact Hc. reflexivity.
Qed.

Lemma image_content_type_witness :
  status_of (Command demo_handler encoder_breaks_midway command_request
               (NewURL encoder_breaks_midway (RequestURI command_request))
               demo_image) = Some 200
  /\ content_type_of (Command demo_handler encoder_breaks_midway command_request
                        (NewURL encoder_breaks_midway (RequestURI command_request))
                        demo_image) = Some "image/jpeg".
Proof.
  exact (image_content_type demo_handler encoder_breaks_midway command_request
           (NewURL encoder_breaks_midway (RequestURI command_request))
           demo_image
           [HeaderSet "Last-Modified" "Mon, 02 Jan 2006 15:04:05 GMT"] []
           "pixels" "jpeg by" (Some (errorString "broken pipe"))
           eq_refl eq_refl eq_refl eq_refl eq_refl).
Defined.

(** ** The submatch [Route] indexes *)

(** X17. [Route] takes [parts[1]] without looking at the length of
    [parts].  For a handler made by [NewIIIFHandler] that index is
    always in range: the base pattern has one group, so a match has two
    submatches, the whole match and the identifier, and [Route] gets
    past the index for every request.  (What happens inside the
    collaborators, [iiif.NewURL] among them, is not part of this.) *)
Theorem submatch_in_range (u : url_URL) (widths : list Z) (tp : string)
    (env : Env) (req : Request) (parts : list string) :
  Regex.regexp_literal (Path u) = true ->
  FindStringSubmatch (BaseRegex (NewIIIFHandler u widths tp)) (RequestURI req)
  = Some parts ->
  (exists id,
      parts = [Path u ++ "/" ++ id; id] /\ index parts 1 = Returns id)
  /\ (forall e, dispatch (NewIIIFHandler u widths tp) env req <> BadSubmatch e)
  /\ (forall e, Route (NewIIIFHandler u widths tp) env req <> [Panic e]).
Proof.
  intros _ Hm. split; [| split].
  - cbn [NewIIIFHandler BaseRegex FindStringSubmatch Regex.base] in Hm.
    destruct (Regex.match_ident (Path u) (RequestURI req)) as [[seg rest] |];
      [| discriminate Hm].
    injection Hm as <-. exists seg. split; reflexivity.
  - apply NewIIIFHandler_submatch.
  - intros e. pose proof (NewIIIFHandler_submatch u widths tp env req e) as Hsub.
    rewrite Route_dispatch.
    destruct (dispatch (NewIIIFHandler u widths tp) env req)
      as [| pe | | id fp | id fp]; try discriminate.
    + intros H. injection H as ->. apply Hsub. reflexivity.
    + rewrite Info_cases.
      destruct (ReadFile env (fp ++ "-info.json")) as [content | rerr];
        [destruct (Bytes.Replace1 _ content _ _) |]; discriminate.
    + destruct (NewImageResource env id fp); discriminate.
Qed.

Lemma submatch_in_range_witness :
  exists id,
    ["/iiif/abc"; "abc"] = [Path demo_base ++ "/" ++ id; id]
    /\ index ["/iiif/abc"; "abc"] 1 = Returns id.
Proof.
  exact (proj1 (submatch_in_range demo_base [256; 512] "/var/local/images"
                  (world fine) command_request ["/iiif/abc"; "abc"]
                  eq_refl eq_refl)).
Defined.

(** The index does go wrong with a base pattern that has no group. *)
Example ungrouped_pattern_panics :
  Route ungrouped_handler (world fine) (get "/iiif/abc" [])
  = [Panic IndexOutOfRange].
Proof. reflexivity. Qed.

(** ** The earlier handler *)

Lemma shown_app (tr1 tr2 : list Earlier.Step) :
  Earlier.shown (tr1 ++ tr2)
  = (Earlier.shown tr1 ++ Earlier.shown tr2)%list.
Proof.
  induction tr1 as [| s tr1 IH]; [reflexivity |].
  destruct s; cbn; rewrite ?IH; reflexivity.
Qed.

Lemma shown_writes (ops : list WriterOp) :
  Earlier.shown (Earlier.writes ops) = map Resp ops.
Proof.
  induction ops as [| op ops IH]; [reflexivity |].
  cbn. rewrite <- IH. reflexivity.
Qed.

Lemma writes_quiet (f : Earlier.Step -> bool) (ops : list WriterOp) :
  (forall op, f (Earlier.Did (Resp op)) = false) ->
  existsb f (Earlier.writes ops) = false.
Proof.
  intros Hf. induction ops as [| op ops IH]; [reflexivity |].
  cbn. rewrite Hf. exact IH.
Qed.

Lemma Earlier_Info_quiet (ih : IIIFHandler) (env : Earlier.World)
    (req : Request) (res : Earlier.Resource) :
  existsb Earlier.is_cleanup (Earlier.Info ih env req res) = false
  /\ existsb Earlier.is_opened (Earlier.Info ih env req res) = false.
Proof.
  unfold Earlier.Info.
  destruct (Earlier.GetDimensions (Earlier.Image_ res)) as [rect | derr];
    [| split; reflexivity].
  destruct (json_Marshal (Earlier.shared env) _); split; reflexivity.
Qed.

Lemma Earlier_Command_quiet (ih : IIIFHandler) (env : Earlier.World)
    (req : Request) (u : iiif_URL) (res : Earlier.Resource) :
  existsb Earlier.is_cleanup (Earlier.Command ih env req u res) = false
  /\ existsb Earlier.is_opened (Earlier.Command ih env req u res) = false.
Proof.
  assert (Hc : forall op, Earlier.is_cleanup (Earlier.Did (Resp op)) = false)
    by reflexivity.
  assert (Ho : forall op, Earlier.is_opened (Earlier.Did (Resp op)) = false)
    by reflexivity.
  unfold Earlier.Command.
  destruct (sendHeaders (Earlier.shared env) req (Earlier.FilePath res))
    as [sent [serr |]];
    cbn [existsb Earlier.is_cleanup Earlier.is_opened orb];
    rewrite !existsb_app, !writes_quiet by assumption;
    [split; reflexivity |].
  destruct (negb (Supported (Earlier.shared env) (FeatureSet_ ih) u));
    [split; reflexivity |].
  destruct (Earlier.ApplyTo env res u) as [img | aerr]; [| split; reflexivity].
  destruct (Earlier.jpeg_Encode env img) as [enc [eerr |]];
    cbn [existsb Earlier.is_cleanup Earlier.is_opened orb];
    rewrite !existsb_app, !writes_quiet by assumption; split; reflexivity.
Qed.

(** X18. The earlier [Route] opens the image for every request that
    matches the base pattern, before it looks at the kind of path; when
    the image cannot be opened the request ends there, with 404 if the
    image does not exist and 500 otherwise. *)
Theorem earlier_opens_every_match (ih : IIIFHandler) (env : Earlier.World)
    (req : Request) (parts : list string) (id : ID) :
  FindStringSubmatch (BaseRegex ih) (RequestURI req) = Some parts ->
  index parts 1 = Returns id ->
  (exists e,
      hd_error (Earlier.Route ih env req)
      = Some (Earlier.Did
                (Called (CallNewImageResource id
                           (TilePath ih ++ "/" ++ ID_Path (Earlier.shared env) id))
                        e)))
  /\ (forall err,
        Earlier.OpenImageResource env id
          (TilePath ih ++ "/" ++ ID_Path (Earlier.shared env) id) = inr err ->
        List.length (Earlier.Route ih env req) = 2%nat
        /\ status_of (Earlier.shown (Earlier.Route ih env req))
           = Some (match err with ErrImageDoesNotExist => 404 | _ => 500 end)).
Proof.
  intros Hm Hi. unfold Earlier.Route. rewrite Hm, Hi.
  destruct (Earlier.OpenImageResource env id _) as [res | oerr].
  - split; [cbn; eauto | discriminate].
  - split; [cbn; eauto |].
    intros err Herr. injection Herr as <-. destruct oerr; split; reflexivity.
Qed.

Lemma earlier_opens_every_match_witness :
  exists e,
    hd_error (Earlier.Route demo_handler
                (Earlier.server fine (inr ErrImageDoesNotExist))
                (get "/iiif/abc" []))
    = Some (Earlier.Did (Called (CallNewImageResource "abc" abc_path) e)).
Proof.
  exact (proj1 (earlier_opens_every_match demo_handler
                  (Earlier.server fine (inr ErrImageDoesNotExist))
                  (get "/iiif/abc" []) ["/iiif/abc"; "abc"] "abc"
                  eq_refl eq_refl)).
Defined.

(** X19. The two handlers on a request for the base URL plus one
    identifier: the current one redirects with 303 at once; the earlier
    one opens the image first and redirects only if that succeeds, so
    an identifier that names no image gets 404 there. *)
Theorem earlier_redirect_needs_image (ih : IIIFHandler) (env : Earlier.World)
    (req : Request) :
  dispatch ih (Earlier.shared env) req = BaseOnly ->
  Route ih (Earlier.shared env) req
  = [Resp (http_Redirect (RequestURI req ++ "/info.json") 303)]
  /\ existsb is_open (Route ih (Earlier.shared env) req) = false
  /\ status_of (Route ih (Earlier.shared env) req) = Some 303
  /\ exists id fp,
       hd_error (Earlier.shown (Earlier.Route ih env req))
       = Some (Called (CallNewImageResource id fp)
                 (match Earlier.OpenImageResource env id fp with
                  | inl _ => None
                  | inr err => Some err
                  end))
       /\ status_of (Earlier.shown (Earlier.Route ih env req))
          = Some (match Earlier.OpenImageResource env id fp with
                  | inl _ => 303
                  | inr ErrImageDoesNotExist => 404
                  | inr _ => 500
                  end).
Proof.
  intros Hd.
  split; [rewrite Route_dispatch, Hd; reflexivity |].
  split; [rewrite Route_dispatch, Hd; reflexivity |].
  split; [rewrite Route_dispatch, Hd; reflexivity |].
  unfold dispatch in Hd. unfold Earlier.Route.
  destruct (FindStringSubmatch (BaseRegex ih) (RequestURI req)) as [parts |];
    [| discriminate].
  destruct (index parts 1) as [id | pe]; [| discriminate].
  destruct (MatchString (BaseOnlyRegex ih) (RequestURI req));
    [| destruct (MatchString (InfoPathRegex ih) (RequestURI req)); discriminate].
  exists id, (TilePath ih ++ "/" ++ ID_Path (Earlier.shared env) id).
  destruct (Earlier.OpenImageResource env id _) as [res | oerr].
  - split; reflexivity.
  - destruct oerr; split; reflexivity.
Qed.

Lemma earlier_redirect_needs_image_witness :
  existsb is_open (Route demo_handler no_image (get "/iiif/abc" [])) = false
  /\ status_of (Earlier.shown
                  (Earlier.Route demo_handler
                     (Earlier.server (with_image (inr ErrImageDoesNotExist) fine)
                                     (inr ErrImageDoesNotExist))
                     (get "/iiif/abc" []))) = Some 404.
Proof.
  split.
  - exact (proj1 (proj2 (earlier_redirect_needs_image demo_handler
                           (Earlier.server
                              (with_image (inr ErrImageDoesNotExist) fine)
                              (inr ErrImageDoesNotExist))
                           (get "/iiif/abc" []) eq_refl))).
  - reflexivity.
Defined.

(** X20. The earlier [Route] releases what it opened: when the image
    was opened, the last step of the request releases that image, and
    nothing releases it before; when it was not opened (no match, or the
    opening failed) nothing is released. *)
Theorem earlier_releases_what_it_opened (ih : IIIFHandler)
    (env : Earlier.World) (req : Request) :
  (existsb Earlier.is_opened (Earlier.Route ih env req) = true ->
   exists id fp res body,
     Earlier.OpenImageResource env id fp = inl res
     /\ Earlier.Route ih env req
        = (Earlier.Did (Called (CallNewImageResource id fp) None)
             :: body ++ [Earlier.CleanupResources (Earlier.ID_ res)])%list
     /\ existsb Earlier.is_cleanup body = false
     /\ existsb Earlier.is_opened body = false)
  /\ (existsb Earlier.is_opened (Earlier.Route ih env req) = false ->
      existsb Earlier.is_cleanup (Earlier.Route ih env req) = false).
Proof.
  unfold Earlier.Route.
  destruct (FindStringSubmatch (BaseRegex ih) (RequestURI req)) as [parts |];
    [| split; [discriminate | reflexivity]].
  destruct (index parts 1) as [id | pe]; [| split; [discriminate | reflexivity]].
  destruct (Earlier.OpenImageResource env id _) as [res | oerr] eqn:Hopen;
    [| split; [discriminate | reflexivity]].
  split; [intros _ | discriminate].
  exists id, (TilePath ih ++ "/" ++ ID_Path (Earlier.shared env) id), res.
  eexists. split; [exact Hopen |]. split; [reflexivity |].
  destruct (MatchString (BaseOnlyRegex ih) (RequestURI req));
    [split; reflexivity |].
  destruct (MatchString (InfoPathRegex ih) (RequestURI req));
    [apply Earlier_Info_quiet |].
  destruct (URL_Valid (Earlier.shared env) _);
    [apply Earlier_Command_quiet | split; reflexivity].
Qed.

(** X21. Without an override file the current [Info] answers as the
    earlier one did: when the override cannot be read and the image the
    current handler opens has the identifier and the dimensions of the
    one the earlier handler was given, both do the same things to the
    response, in the same order. *)
Theorem info_unchanged_without_override (ih : IIIFHandler)
    (env : Earlier.World) (req : Request) (id : ID) (fp : string)
    (old : Earlier.Resource) (res : ImageResource)
    (rect : Earlier.Rectangle) (rerr : error) :
  ReadFile (Earlier.shared env) (fp ++ "-info.json") = inr rerr ->
  NewImageResource (Earlier.shared env) id fp = inl res ->
  Earlier.GetDimensions (Earlier.Image_ old) = inl rect ->
  Earlier.ID_ old = res_ID res ->
  Earlier.Dx rect = GetWidth (res_Decoder res) ->
  Earlier.Dy rect = GetHeight (res_Decoder res) ->
  filter is_response (Earlier.shown (Earlier.Info ih env req old))
  = filter is_response (Info ih (Earlier.shared env) req id fp).
Proof.
  intros Hread Hopen Hdim Hid Hw Hh.
  rewrite Info_cases, Hread. unfold generated, descriptor, Earlier.Info.
  rewrite Hopen, Hdim, Hid, Hw, Hh.
  destruct (json_Marshal (Earlier.shared env) _) as [json | merr]; reflexivity.
Qed.

Lemma info_unchanged_without_override_witness :
  filter is_response
    (Earlier.shown
       (Earlier.Info demo_handler (Earlier.server fine (inl Earlier.demo_resource))
          (info_request ["application/ld+json"]) Earlier.demo_resource))
  = filter is_response
      (Info demo_handler (world fine) (info_request ["application/ld+json"])
         "abc" abc_path).
Proof.
  exact (info_unchanged_without_override demo_handler
           (Earlier.server fine (inl Earlier.demo_resource))
           (info_request ["application/ld+json"]) "abc" abc_path
           Earlier.demo_resource demo_image
           (Earlier.mkRectangle 0 0 800 600)
           (PathError "open" "/var/local/images/abc-info.json" ENOENT)
           eq_refl eq_refl eq_refl eq_refl eq_refl eq_refl).
Defined.

Lemma payload_app (note : string -> Z -> string) (tr1 tr2 : list Event) :
  payload note (tr1 ++ tr2)%list = payload note tr1 ++ payload note tr2.
Proof.
  induction tr1 as [| e tr1 IH]; [reflexivity |].
  destruct e as [op | msg | c err | pe]; cbn [app payload]; try exact IH.
  destruct op; cbn [payload]; rewrite ?IH, ?append_assoc; try reflexivity.
Qed.

Lemma Earlier_Command_shown (ih : IIIFHandler) (env : Earlier.World)
    (req : Request) (u : iiif_URL) (old : Earlier.Resource) :
  Earlier.shown (Earlier.Command ih env req u old)
  = (let '(sent, err) :=
       sendHeaders (Earlier.shared env) req (Earlier.FilePath old) in
     Called (CallSendHeaders (Earlier.FilePath old)) err :: map Resp sent ++
     match err with
     | Some _ => []
     | None =>
         if negb (Supported (Earlier.shared env) (FeatureSet_ ih) u)
         then [Resp (http_Error "Feature not supported" 501)]
         else
           match Earlier.ApplyTo env old u with
           | inr err => [Resp (http_Error (Error (Earlier.shared env) err) 500)]
           | inl img =>
               map Resp (fst (Earlier.jpeg_Encode env img)) ++
               match snd (Earlier.jpeg_Encode env img) with
               | Some _ => [Resp (http_Error "Unable to encode jpeg" 500)]
               | None => []
               end
           end
     end)%list.
Proof.
  unfold Earlier.Command.
  destruct (sendHeaders (Earlier.shared env) req (Earlier.FilePath old))
    as [sent [serr |]]; cbn [Earlier.shown];
    rewrite shown_app, shown_writes; [reflexivity |].
  destruct (negb (Supported (Earlier.shared env) (FeatureSet_ ih) u));
    [reflexivity |].
  destruct (Earlier.ApplyTo env old u) as [img | aerr]; [| reflexivity].
  destruct (Earlier.jpeg_Encode env img) as [enc [eerr |]];
    cbn [Earlier.shown fst snd]; rewrite shown_app, shown_writes; reflexivity.
Qed.

(** X22. What changed in [Command] between the two handlers, given
    the same [sendHeaders], feature check, transformation and encoder:
    the status is the one the earlier [Command] sent; the bytes handed
    to the response are the same unless the encoder reports an error,
    and then they differ in the message only, "Unable to encode jpeg"
    before and "Unable to encode" now. *)
Theorem command_status_unchanged (note : string -> Z -> string)
    (ih : IIIFHandler) (env : Earlier.World) (req : Request) (u : iiif_URL)
    (old : Earlier.Resource) (res : ImageResource) :
  Earlier.FilePath old = res_FilePath res ->
  Earlier.ApplyTo env old u = Apply (Earlier.shared env) res u ->
  (forall img,
      Earlier.jpeg_Encode env img
      = EncodeImage (Earlier.shared env) img (url_Format u)) ->
  status_of (Earlier.shown (Earlier.Command ih env req u old))
  = status_of (Command ih (Earlier.shared env) req u res)
  /\ ((forall img fmt e,
         ~ In (CallEncodeImage img fmt, e)
              (errors_of (Command ih (Earlier.shared env) req u res))) ->
      payload note (Earlier.shown (Earlier.Command ih env req u old))
      = payload note (Command ih (Earlier.shared env) req u res))
  /\ (forall img fmt e,
        In (CallEncodeImage img fmt, e)
           (errors_of (Command ih (Earlier.shared env) req u res)) ->
        exists pre,
          payload note (Earlier.shown (Earlier.Command ih env req u old))
          = pre ++ "Unable to encode jpeg" ++ newline
          /\ payload note (Command ih (Earlier.shared env) req u res)
             = pre ++ "Unable to encode" ++ newline).
Proof.
  intros Hfp Happly Henc.
  assert (Hp : forall op, is_panic (Resp op) = false) by reflexivity.
  rewrite Earlier_Command_shown. unfold Command. rewrite Hfp, Happly.
  destruct (sendHeaders (Earlier.shared env) req (res_FilePath res))
    as [sent [serr |]].
  { split; [reflexivity |]. split; [reflexivity |].
    intros img fmt e Hin. exfalso. cbn [errors_of] in Hin.
    rewrite errors_of_app, no_errors_in_ops in Hin.
    destruct Hin as [Hin | []]. discriminate Hin. }
  destruct (negb (Supported (Earlier.shared env) (FeatureSet_ ih) u)).
  { split; [reflexivity |]. split; [reflexivity |].
    intros img fmt e Hin. exfalso. cbn [errors_of] in Hin.
    rewrite errors_of_app, no_errors_in_ops in Hin. destruct Hin. }
  destruct (Apply (Earlier.shared env) res u) as [img | aerr].
  - rewrite Henc.
    destruct (EncodeImage (Earlier.shared env) img (url_Format u))
      as [enc [eerr |]]; cbn [fst snd].
    + split; [| split].
      * unfold status_of. cbn [committed existsb is_panic orb].
        rewrite !committed_app, !existsb_ops_app by assumption.
        cbn [committed commits existsb is_panic orb].
        rewrite !committed_app, !existsb_ops_app by assumption.
        reflexivity.
      * intros Hno. exfalso. apply (Hno img (url_Format u) eerr).
        cbn [errors_of]. rewrite errors_of_app, no_errors_in_ops.
        cbn [app errors_of]. left. reflexivity.
      * intros _ _ _ _.
        exists (payload note (map Resp sent) ++ payload note (map Resp enc)).
        cbn [payload]. rewrite !payload_app. cbn [payload].
        rewrite !payload_app. cbn [payload].
        rewrite !append_assoc. split; reflexivity.
    + split; [| split].
      * unfold status_of. cbn [committed existsb is_panic orb].
        rewrite !committed_app, !existsb_ops_app by assumption.
        cbn [committed commits existsb is_panic orb].
        rewrite !committed_app, !existsb_ops_app by assumption.
        reflexivity.
      * intros _. cbn [payload]. rewrite !payload_app. cbn [payload].
        rewrite !payload_app. reflexivity.
      * intros img' fmt e Hin. exfalso. cbn [errors_of] in Hin.
        rewrite errors_of_app, no_errors_in_ops in Hin.
        cbn [app errors_of] in Hin.
        rewrite errors_of_app, no_errors_in_ops in Hin. destruct Hin.
  - split; [| split].
    + unfold status_of. cbn [committed existsb is_panic orb].
      rewrite !committed_app, !existsb_ops_app by assumption. reflexivity.
    + intros _. cbn [payload]. rewrite !payload_app. reflexivity.
    + intros img fmt e Hin. exfalso. cbn [errors_of] in Hin.
      rewrite errors_of_app, no_errors_in_ops in Hin.
      cbn [app errors_of] in Hin. destruct Hin as [Hin | []]. discriminate Hin.
Qed.

Lemma command_status_unchanged_witness :
  exists pre,
    payload no_note
      (Earlier.shown
         (Earlier.Command demo_handler
            (Earlier.server
               (with_encoded ([], Some (errorString "unsupported format")) fine)
               (inl Earlier.demo_resource))
            command_request
            (NewURL encode_fails (RequestURI command_request))
            Earlier.demo_resource))
    = pre ++ "Unable to encode jpeg" ++ newline
    /\ payload no_note
         (Command demo_handler encode_fails command_request
            (NewURL encode_fails (RequestURI command_request)) demo_image)
       = pre ++ "Unable to encode" ++ newline.
Proof.
  exact (proj2 (proj2 (command_status_unchanged no_note demo_handler
                         (Earlier.server
                            (with_encoded
                               ([], Some (errorString "unsupported format"))
                               fine)
                            (inl Earlier.demo_resource))
                         command_request
                         (NewURL encode_fails (RequestURI command_request))
                         Earlier.demo_resource demo_image
                         eq_refl eq_refl (fun _ => eq_refl)))
           "pixels" "jpg" (errorString "unsupported format")
           (or_introl eq_refl)).
Defined.
